(** * To-Do dashboard: filter/sort engine, stats, form mapping, toggle/delete

    A shallow embedding of the client-side logic of the dashboard
    ([App.tsx], [services/api.ts], [components/TaskForm.tsx],
    [components/TaskCard.tsx], [types.ts]) together with the properties
    stated about it.

    Conventions of the embedding:
    - a JavaScript string is the list of its UTF-16 code units ([jsstring]);
    - JavaScript numbers that the code only uses as integers (identifiers,
      priorities, time values in milliseconds, counts) are [Z]; a number
      that may be [NaN] is an [option Z] with [None] for [NaN];
    - [string | null] fields are [option jsstring];
    - object literals sent to the API are finite maps from keys to values;
    - the React state ([tasks]) is threaded explicitly, and what the
      handlers do to the outside world (confirm dialog, HTTP request,
      alert) is recorded in an effect log, in program order. *)

From Stdlib Require Import ZArith List Bool Lia Permutation Sorted.
From stdpp Require Import gmap strings list fin_maps.

Local Open Scope Z_scope.

(** ** JavaScript strings *)

Module JsString.

(** A string value: its sequence of UTF-16 code units. *)
Definition jsstring : Type := list N.

(** Literal strings of the source, written with Rocq string literals. *)
Definition str (s : string) : jsstring :=
  List.map Ascii.N_of_ascii (String.list_ascii_of_string s).

(** ECMAScript WhiteSpace and LineTerminator code points, the ones
    [String.prototype.trim] strips. *)
Definition isWhiteSpace (c : N) : bool :=
  List.existsb (N.eqb c)
    [9; 10; 11; 12; 13; 32; 160; 5760;
     8192; 8193; 8194; 8195; 8196; 8197; 8198; 8199; 8200; 8201; 8202;
     8232; 8233; 8239; 8287; 12288; 65279]%N.

Fixpoint trimStart (s : jsstring) : jsstring :=
  match s with
  | c :: s' => if isWhiteSpace c then trimStart s' else s
  | [] => []
  end.

Definition trimEnd (s : jsstring) : jsstring := rev (trimStart (rev s)).

(** [s.trim()] *)
Definition trim (s : jsstring) : jsstring := trimEnd (trimStart s).

(** [s.split(sep)] for a one-code-unit separator: the segments between
    the occurrences of [sep]; the empty string splits into one empty
    segment. *)
Fixpoint split (sep : N) (s : jsstring) : list jsstring :=
  match s with
  | [] => [[]]
  | c :: s' =>
      if N.eqb c sep then [] :: split sep s'
      else match split sep s' with
           | seg :: segs => (c :: seg) :: segs
           | [] => [[c]]
           end
  end.

(** [l.join(sep)] *)
Fixpoint join (sep : jsstring) (l : list jsstring) : jsstring :=
  match l with
  | [] => []
  | [s] => s
  | s :: l' => s ++ sep ++ join sep l'
  end.

(** Truthiness of a [string | null] value: [null] and [''] are falsy. *)
Definition truthy (o : option jsstring) : bool :=
  match o with
  | Some (_ :: _) => true
  | _ => false
  end.

Definition comma : N := 44%N.
Definition space : N := 32%N.

End JsString.
Export JsString.

(** ** Dates

    [new Date(s)] for a date-only string [YYYY-MM-DD] is the time value of
    midnight UTC of that calendar day (ECMAScript, Date Time String Format:
    a date-only form is interpreted as UTC).  This is the form the
    [due_date] field is documented to hold.  Any other string is given
    the invalid date ([NaN], here [None]); engines accept more (date-time
    forms, read as local time, and some dates the calendar does not
    have), so what depends on the parsed value is stated for due dates
    that are calendar dates ([validDue]).  The local time zone of a
    [Clock] is a fixed offset from UTC; [TimeZone] further down lets the
    offset change with the instant. *)

Module JsDate.

Definition msPerDay : Z := 86400000.

Definition digit (c : N) : option Z :=
  if (48 <=? c)%N && (c <=? 57)%N then Some (Z.of_N c - 48) else None.

Definition isLeapYear (y : Z) : bool :=
  ((y mod 4 =? 0) && negb (y mod 100 =? 0)) || (y mod 400 =? 0).

Definition daysInMonth (y m : Z) : Z :=
  if m =? 2 then (if isLeapYear y then 29 else 28)
  else if (m =? 4) || (m =? 6) || (m =? 9) || (m =? 11) then 30
  else 31.

(** Number of days from 1970-01-01 to the civil date [y]-[m]-[d]
    (proleptic Gregorian calendar). *)
Definition daysFromCivil (y m d : Z) : Z :=
  let y' := if m <=? 2 then y - 1 else y in
  let era := y' / 400 in
  let yoe := y' - era * 400 in
  let mp := if m >? 2 then m - 3 else m + 9 in
  let doy := (153 * mp + 2) / 5 + d - 1 in
  let doe := yoe * 365 + yoe / 4 - yoe / 100 + doy in
  era * 146097 + doe - 719468.

(** The calendar day a [YYYY-MM-DD] string names, as a day number. *)
Definition parseDay (s : jsstring) : option Z :=
  match s with
  | [y1; y2; y3; y4; h1; m1; m2; h2; d1; d2] =>
      if N.eqb h1 45 && N.eqb h2 45 then
        match digit y1, digit y2, digit y3, digit y4,
              digit m1, digit m2, digit d1, digit d2 with
        | Some a, Some b, Some c, Some e, Some f, Some g, Some h, Some i =>
            let y := 1000 * a + 100 * b + 10 * c + e in
            let m := 10 * f + g in
            let d := 10 * h + i in
            if (1 <=? m) && (m <=? 12) && (1 <=? d) && (d <=? daysInMonth y m)
            then Some (daysFromCivil y m d)
            else None
        | _, _, _, _, _, _, _, _ => None
        end
      else None
  | _ => None
  end.

(** [new Date(s).getTime()], in milliseconds since the epoch. *)
Definition Date_parse (s : jsstring) : option Z :=
  match parseDay s with
  | Some n => Some (n * msPerDay)
  | None => None
  end.

(** The clock and time zone the code runs under: [nowMs] is what
    [new Date()] reads, [localTZA] the offset of local time from UTC in
    milliseconds (positive east of Greenwich). *)
Record Clock : Type := { nowMs : Z; localTZA : Z }.

(** Local calendar day (as a day number) that the instant [t] falls on. *)
Definition localDay (clk : Clock) (t : Z) : Z := (t + localTZA clk) / msPerDay.

(** [d.toDateString()].  The text names the local calendar day of [d]
    (weekday, month, day, year), so two results are equal strings exactly
    when the days are; an invalid date prints as ["Invalid Date"]. *)
Definition toDateString (clk : Clock) (d : option Z) : option Z :=
  match d with
  | Some t => Some (localDay clk t)
  | None => None
  end.

(** [d.setHours(0,0,0,0)]: the instant of local midnight of [d]'s day. *)
Definition setHours0 (clk : Clock) (t : Z) : Z :=
  localDay clk t * msPerDay - localTZA clk.

(** [a === b] on two [toDateString] results. *)
Definition dateStringEq (a b : option Z) : bool :=
  match a, b with
  | Some x, Some y => x =? y
  | None, None => true
  | _, _ => false
  end.

(** [d < now] on two dates: a comparison with [NaN] is false. *)
Definition dateLt (d : option Z) (t : Z) : bool :=
  match d with
  | Some x => x <? t
  | None => false
  end.

End JsDate.
Export JsDate.

(** ** Data model ([types.ts]) *)

Record Task : Type := mkTask {
  id : Z;
  title : jsstring;
  done : bool;
  priority : Z;
  due_date : option jsstring;
  created_at : jsstring;
  updated_at : jsstring;
  notes : option jsstring;
  tags : list jsstring
}.

Inductive TaskFilter : Type :=
| FilterAll
| FilterOpen
| FilterToday
| FilterOverdue.

Record TaskFormData : Type := mkForm {
  f_title : jsstring;
  f_priority : Z;
  f_due_date : jsstring;
  f_notes : jsstring;
  f_tags : jsstring
}.

(** [{ ...t, done: b }] *)
Definition with_done (t : Task) (b : bool) : Task :=
  {| id := id t; title := title t; done := b; priority := priority t;
     due_date := due_date t; created_at := created_at t;
     updated_at := updated_at t; notes := notes t; tags := tags t |}.

(** [new Date(t.due_date)] where the code has checked [t.due_date] truthy. *)
Definition dueTime (t : Task) : option Z :=
  match due_date t with
  | Some s => Date_parse s
  | None => None
  end.

(** ** Filter/sort engine ([App.tsx], [filteredTasks])

    One evaluation reads the clock twice ([new Date()] for [todayStr] and
    for [now]); both reads are taken at the same instant [nowMs]. *)

Section Engine.

Variable clk : Clock.

(** [const todayStr = new Date().toDateString()] *)
Definition todayStr : option Z := toDateString clk (Some (nowMs clk)).

(** [const now = new Date(); now.setHours(0,0,0,0)] *)
Definition startOfToday : Z := setHours0 clk (nowMs clk).

(** The predicate of the ['open'] tab: [t => !t.done]. *)
Definition keepOpen (t : Task) : bool := negb (done t).

(** The predicate of the ['today'] tab:
    [!t.done && t.due_date && new Date(t.due_date).toDateString() === todayStr]. *)
Definition keepToday (t : Task) : bool :=
  negb (done t) && truthy (due_date t)
  && dateStringEq (toDateString clk (dueTime t)) todayStr.

(** The predicate of the ['overdue'] tab:
    [!t.done && t.due_date && new Date(t.due_date) < now]. *)
Definition keepOverdue (t : Task) : bool :=
  negb (done t) && truthy (due_date t) && dateLt (dueTime t) startOfToday.

(** The [switch (currentFilter)] of [filteredTasks]. *)
Definition applyFilter (f : TaskFilter) (ts : list Task) : list Task :=
  match f with
  | FilterOpen => List.filter keepOpen ts
  | FilterToday => List.filter keepToday ts
  | FilterOverdue => List.filter keepOverdue ts
  | FilterAll => ts
  end.

End Engine.

(** The comparator handed to [result.sort]; [None] is a [NaN] result
    (a difference of time values one of which is invalid). *)
Definition compareTasks (a b : Task) : option Z :=
  if negb (Bool.eqb (done a) (done b)) then Some (if done a then 1 else -1)
  else if negb (priority a =? priority b) then Some (priority a - priority b)
  else if truthy (due_date a) && truthy (due_date b) then
    match dueTime a, dueTime b with
    | Some x, Some y => Some (x - y)
    | _, _ => None
    end
  else if truthy (due_date a) && negb (truthy (due_date b)) then Some (-1)
  else if negb (truthy (due_date a)) && truthy (due_date b) then Some 1
  else Some (id b - id a).

(** ** [Array.prototype.sort]

    ECMAScript reads a [NaN] comparator result as [+0] and requires the
    sort to be stable.  For a consistent comparator the result is then
    determined: the stable sorted permutation, which insertion from the
    right computes.  Where the comparator is not consistent (it is on
    tasks whose due dates are calendar dates, see
    [compareTasks_transitive]) ECMAScript leaves the order to the engine;
    the model sorts by the same insertion there. *)

Section ArraySort.

Context {A : Type}.
Variable comparefn : A -> A -> option Z.

Definition sortCompare (x y : A) : Z :=
  match comparefn x y with
  | Some v => v
  | None => 0
  end.

Fixpoint insertSorted (x : A) (l : list A) : list A :=
  match l with
  | [] => [x]
  | y :: l' =>
      if sortCompare x y <=? 0 then x :: l else y :: insertSorted x l'
  end.

Definition Array_sort (l : list A) : list A :=
  List.fold_right insertSorted [] l.

(** [x] may stand directly before [y] in a sorted array. *)
Definition inOrder (x y : A) : Prop := sortCompare x y <= 0.

(** Swapping the arguments of the comparator does not yield two positive
    answers. *)
Definition signConsistent : Prop :=
  forall x y, 0 < sortCompare x y -> sortCompare y x <= 0.

End ArraySort.

(** [filteredTasks]: copy the list, filter by the tab, sort. *)
Definition filteredTasks (clk : Clock) (f : TaskFilter) (ts : list Task)
  : list Task :=
  Array_sort compareTasks (applyFilter clk f ts).

(** ** Stats aggregator *)

Record Stats : Type := mkStats {
  total : Z;
  open : Z;
  doneCount : Z;
  dueToday : Z;
  overdue : Z
}.

Definition count (p : Task -> bool) (ts : list Task) : Z :=
  Z.of_nat (length (List.filter p ts)).

Section StatsAggregator.

Variable clk : Clock.

(** The [now] of [stats]: [new Date()] moved to local midnight. *)
Definition statsNow : Z := setHours0 clk (nowMs clk).

(** [!t.done && t.due_date &&
     new Date(t.due_date).toDateString() === now.toDateString()] *)
Definition statsDueToday (t : Task) : bool :=
  negb (done t) && truthy (due_date t)
  && dateStringEq (toDateString clk (dueTime t))
                  (toDateString clk (Some statsNow)).

(** [!t.done && t.due_date && new Date(t.due_date) < now] *)
Definition statsOverdue (t : Task) : bool :=
  negb (done t) && truthy (due_date t) && dateLt (dueTime t) statsNow.

(** [stats], the five-field version of the dashboard. *)
Definition stats (ts : list Task) : Stats :=
  let total := Z.of_nat (length ts) in
  let open := count (fun t => negb (done t)) ts in
  {| total := total; open := open; doneCount := total - open;
     dueToday := count statsDueToday ts;
     overdue := count statsOverdue ts |}.

End StatsAggregator.

(** [isOverdue] and [isDueToday] of [TaskCard]. *)
Definition isOverdue (clk : Clock) (task : Task) : bool :=
  negb (done task) && truthy (due_date task)
  && dateLt (dueTime task) (setHours0 clk (nowMs clk)).

Definition isDueToday (clk : Clock) (task : Task) : bool :=
  negb (done task) && truthy (due_date task)
  && dateStringEq (toDateString clk (dueTime task))
                  (toDateString clk (Some (nowMs clk))).

(** ** API client ([services/api.ts]): the request bodies *)

(** The values that occur in the bodies sent to the API. *)
Inductive jsval : Type :=
| VNull
| VBool (b : bool)
| VNum (n : Z)
| VStr (s : jsstring)
| VArr (l : list jsstring).

(** [s.split(',').map(t => t.trim()).filter(t => t.length > 0)] *)
Definition tagsArray (s : jsstring) : list jsstring :=
  List.filter (fun t => (0 <? length t)%nat) (List.map trim (split comma s)).

(** A [TaskFormData] value as the object the spread [{ ...data }] copies. *)
Definition formObject (data : TaskFormData) : gmap string jsval :=
  <["title" := VStr (f_title data)]>
    (<["priority" := VNum (f_priority data)]>
       (<["due_date" := VStr (f_due_date data)]>
          (<["notes" := VStr (f_notes data)]>
             (<["tags" := VStr (f_tags data)]> ∅)))).

(** [s || null] on a string. *)
Definition orNull (s : jsstring) : jsval :=
  if truthy (Some s) then VStr s else VNull.

(** The [payload] of [createTask]. *)
Definition createTask_payload (data : TaskFormData) : gmap string jsval :=
  <["tags" := VArr (tagsArray (f_tags data))]>
    (<["notes" := orNull (f_notes data)]>
       (<["due_date" := orNull (f_due_date data)]> (formObject data))).

(** The [payload] of [updateTask]; [data] is a partial form object or
    [{ done }]. *)
Definition updateTask_payload (data : gmap string jsval) : gmap string jsval :=
  let payload := data in
  let payload :=
    match data !! "tags" with
    | Some (VStr s) => <["tags" := VArr (tagsArray s)]> payload
    | _ => payload
    end in
  let payload :=
    match payload !! "due_date" with
    | Some (VStr []) => <["due_date" := VNull]> payload
    | _ => payload
    end in
  match payload !! "notes" with
  | Some (VStr []) => <["notes" := VNull]> payload
  | _ => payload
  end.

Inductive Method : Type := GET | POST | PATCH | DELETE.

(** A request to [/tasks] ([taskId = None]) or [/tasks/{id}]. *)
Record Request : Type := mkRequest {
  method : Method;
  taskId : option Z;
  body : option (gmap string jsval)
}.

Definition createTask_request (data : TaskFormData) : Request :=
  mkRequest POST None (Some (createTask_payload data)).

Definition updateTask_request (i : Z) (data : gmap string jsval) : Request :=
  mkRequest PATCH (Some i) (Some (updateTask_payload data)).

Definition deleteTask_request (i : Z) : Request :=
  mkRequest DELETE (Some i) None.

(** ** Form/editor state ([TaskForm]) *)

(** [s || ''] on a [string | null]. *)
Definition orEmpty (o : option jsstring) : jsstring :=
  match o with
  | Some s => s
  | None => []
  end.

(** The form loaded from [initialData] when the editor opens. *)
Definition formOfTask (initialData : Task) : TaskFormData :=
  {| f_title := title initialData;
     f_priority := priority initialData;
     f_due_date := orEmpty (due_date initialData);
     f_notes := orEmpty (notes initialData);
     f_tags := join (str ", ") (tags initialData) |}.

(** ** Handlers ([handleToggleDone], [handleDelete]) *)

Inductive Effect : Type :=
| EConfirm (msg : jsstring)
| ERequest (r : Request)
| EAlert (msg : jsstring).

(** The [tasks] state of [App] and the effects performed so far, oldest
    first. *)
Record AppState : Type := mkApp {
  tasks : list Task;
  effects : list Effect
}.

(** [setTasks(prev => f(prev))] *)
Definition setTasks (f : list Task -> list Task) (st : AppState) : AppState :=
  {| tasks := f (tasks st); effects := effects st |}.

Definition perform (e : Effect) (st : AppState) : AppState :=
  {| tasks := tasks st; effects := effects st ++ [e] |}.

(** [prev.map(t => t.id === task.id ? { ...t, done: b } : t)] *)
Definition setDone (task : Task) (b : bool) (prev : list Task) : list Task :=
  List.map (fun t => if id t =? id task then with_done t b else t) prev.

Definition toggleFailedMsg : jsstring :=
  str "Status konnte nicht aktualisiert werden.".

(** ["<title>" wirklich löschen?] *)
Definition confirmDeleteMsg (task : Task) : jsstring :=
  [34%N] ++ title task ++ [34%N] ++ str " wirklich l" ++ [246%N] ++ str "schen?".

Definition deleteFailedMsg : jsstring :=
  str "L" ++ [246%N] ++ str "schen fehlgeschlagen.".

(** The object [{ done: b }] that [handleToggleDone] hands to
    [updateTask]. *)
Definition doneObject (b : bool) : gmap string jsval :=
  <["done" := VBool b]> ∅.

(** [handleToggleDone] up to its [await]: the optimistic update, then the
    PATCH request is issued. *)
Definition handleToggleDone_begin (task : Task) (st : AppState) : AppState :=
  let newStatus := negb (done task) in
  let st := setTasks (setDone task newStatus) st in
  perform (ERequest (updateTask_request (id task) (doneObject newStatus))) st.

(** [handleToggleDone] after the [await]: [ok] tells whether [updateTask]
    returned or threw. *)
Definition handleToggleDone_resume (task : Task) (ok : bool) (st : AppState)
  : AppState :=
  let newStatus := negb (done task) in
  if ok then st
  else perform (EAlert toggleFailedMsg)
         (setTasks (setDone task (negb newStatus)) st).

Definition handleToggleDone (task : Task) (ok : bool) (st : AppState)
  : AppState :=
  handleToggleDone_resume task ok (handleToggleDone_begin task st).

(** [handleDelete]: [confirmed] is the answer of [window.confirm], [ok]
    whether [deleteTask] returned or threw. *)
Definition handleDelete (task : Task) (confirmed ok : bool) (st : AppState)
  : AppState :=
  let st := perform (EConfirm (confirmDeleteMsg task)) st in
  if negb confirmed then st
  else
    let st := perform (ERequest (deleteTask_request (id task))) st in
    if ok then setTasks (List.filter (fun t => negb (id t =? id task))) st
    else perform (EAlert deleteFailedMsg) st.

(** ** The day-boundary predicates in the words of the specification

    The specification states the two date tabs on calendar days: a task is
    due today when the day its [due_date] names is the current local day,
    and overdue when that day, taken at local midnight, lies strictly
    before the start of the current local day. *)

(** The calendar day the task's [due_date] names, when it is present. *)
Definition dueDay (t : Task) : option Z :=
  match due_date t with
  | Some s => parseDay s
  | None => None
  end.

(** The instant of local midnight of calendar day [d]. *)
Definition localMidnight (clk : Clock) (d : Z) : Z :=
  d * msPerDay - localTZA clk.

Definition currentLocalDay (clk : Clock) : Z := localDay clk (nowMs clk).

Definition spec_today (clk : Clock) (t : Task) : bool :=
  negb (done t)
  && match dueDay t with
     | Some d => d =? currentLocalDay clk
     | None => false
     end.

Definition spec_overdue (clk : Clock) (t : Task) : bool :=
  negb (done t)
  && match dueDay t with
     | Some d => localMidnight clk d <? localMidnight clk (currentLocalDay clk)
     | None => false
     end.

Definition spec_keep (clk : Clock) (f : TaskFilter) (t : Task) : bool :=
  match f with
  | FilterAll => true
  | FilterOpen => negb (done t)
  | FilterToday => spec_today clk t
  | FilterOverdue => spec_overdue clk t
  end.

(** The order the specification states, rule by rule: [a] is to come
    strictly before [b]. *)
Definition spec_before (a b : Task) : bool :=
  if negb (Bool.eqb (done a) (done b)) then negb (done a)
  else if negb (priority a =? priority b) then priority a <? priority b
  else
    match dueDay a, dueDay b with
    | Some x, Some y => if x =? y then id b <? id a else x <? y
    | Some _, None => true
    | None, Some _ => false
    | None, None => id b <? id a
    end.

(** ** Sample data *)

Definition sampleTask (i p : Z) (d : bool) (due : option jsstring) : Task :=
  {| id := i; title := str "Bericht"; done := d; priority := p;
     due_date := due; created_at := str "2024-01-10T08:00:00";
     updated_at := str "2024-01-10T08:00:00"; notes := None; tags := [] |}.

(** 2024-01-15, 12:00 local time in a zone five hours west of UTC. *)
Definition noonWest : Clock :=
  {| nowMs := 1705338000000; localTZA := -18000000 |}.

(** 2024-01-15, 12:00 local time in a zone one hour east of UTC. *)
Definition noonEast : Clock :=
  {| nowMs := 1705316400000; localTZA := 3600000 |}.

Definition dueJan15 : option jsstring := Some (str "2024-01-15").
Definition dueJan14 : option jsstring := Some (str "2024-01-14").
Definition dueJan16 : option jsstring := Some (str "2024-01-16").

(** The open or done tasks of priority [p] whose [due_date] is the
    non-empty string [s]: a class the comparator does not separate. *)
Definition dueClass (d : bool) (p : Z) (s : jsstring) (t : Task) : bool :=
  Bool.eqb (done t) d && (priority t =? p) && truthy (Some s)
  && bool_decide (due_date t = Some s).

(** The data-model invariant on due dates: a due date that is present
    (truthy) is a calendar date. *)
Definition validDue (t : Task) : Prop :=
  truthy (due_date t) = true -> dueDay t <> None.

(** Two open tasks of priority 1, both due 2024-01-15. *)
Definition dupA : Task := sampleTask 1 1 false dueJan15.
Definition dupB : Task := sampleTask 2 1 false dueJan15.

(** Three open tasks, due the day before, on, and the day after
    2024-01-15. *)
Definition dueYesterdayTask : Task := sampleTask 6 2 false dueJan14.
Definition dueTodayTask : Task := sampleTask 7 2 false dueJan15.
Definition dueTomorrowTask : Task := sampleTask 8 2 false dueJan16.

Definition threeDays : list Task :=
  [dueYesterdayTask; dueTodayTask; dueTomorrowTask].

(** [stats] as [App.tsx] has it: [{ total, open, done }]. *)
Definition statsBasic (ts : list Task) : Z * Z * Z :=
  let total := Z.of_nat (length ts) in
  let open := count (fun t => negb (done t)) ts in
  (total, open, total - open).

(** A tag that survives the form unchanged: not empty, without leading
    or trailing white space, without a comma. *)
Definition cleanTag (t : jsstring) : Prop :=
  t <> [] /\ trim t = t /\ ~ In comma t.

(** A task whose only tag is the empty string. *)
Definition emptyTagTask : Task :=
  {| id := 9; title := str "Bericht"; done := false; priority := 3;
     due_date := None; created_at := str "2024-01-10T08:00:00";
     updated_at := str "2024-01-10T08:00:00"; notes := None; tags := [[]] |}.

(** A task tagged [a] and [b]. *)
Definition twoTagTask : Task :=
  {| id := 10; title := str "Bericht"; done := false; priority := 3;
     due_date := None; created_at := str "2024-01-10T08:00:00";
     updated_at := str "2024-01-10T08:00:00"; notes := None;
     tags := [str "a"; str "b"] |}.

(** A form whose due date and notes are left empty. *)
Definition blankForm : TaskFormData :=
  {| f_title := str "Bericht"; f_priority := 3; f_due_date := [];
     f_notes := []; f_tags := str "arbeit, wichtig" |}.

(** [t'] is [t] up to its [done] field, and is [t] itself when [t] is
    not the task with identifier [i]. *)
Definition onlyDoneOf (i : Z) (t t' : Task) : Prop :=
  t' = with_done t (done t') /\ (id t <> i -> t' = t).

(** A list of three tasks and a state holding it. *)
Definition sampleTasks : list Task :=
  [sampleTask 1 2 false None; sampleTask 2 1 false dueJan15;
   sampleTask 3 2 true None].

Definition sampleState : AppState := {| tasks := sampleTasks; effects := [] |}.

(** ** Vocabulary for the further properties *)

(** The predicate the tab [f] filters by. *)
Definition keepBy (clk : Clock) (f : TaskFilter) (t : Task) : bool :=
  match f with
  | FilterAll => true
  | FilterOpen => keepOpen t
  | FilterToday => keepToday clk t
  | FilterOverdue => keepOverdue clk t
  end.

(** [a] stands at an earlier position of [l] than [b]. *)
Definition before {A : Type} (l : list A) (a b : A) : Prop :=
  exists l1 l2 l3, l = l1 ++ a :: l2 ++ b :: l3.

(** The part of the order that needs no dates: open before done, then
    ascending priority. *)
Definition rankLe (a b : Task) : Prop :=
  (done a = true -> done b = true)
  /\ (done a = done b -> priority a <= priority b).

(** Within one completion status and priority: dated before undated,
    dated by ascending day, undated by descending identifier. *)
Definition dueLe (a b : Task) : Prop :=
  match dueDay a, dueDay b with
  | Some x, Some y => x <= y
  | Some _, None => True
  | None, Some _ => False
  | None, None => id b <= id a
  end.

(** Open tasks: without date, due 2024-01-16 and 2024-01-14, and one of
    higher priority; and a done one. *)
Definition mixedTasks : list Task :=
  [sampleTask 1 2 false None; sampleTask 2 2 false dueJan16;
   sampleTask 3 2 true dueJan14; sampleTask 4 2 false dueJan14;
   sampleTask 5 1 false None; sampleTask 6 2 false None].

(** What a [string | null] field of a task becomes on its way through
    the form ([o || '']) and the request body ([s || null]). *)
Definition optValue (o : option jsstring) : jsval :=
  match o with
  | Some (c :: s) => VStr (c :: s)
  | _ => VNull
  end.

(** The keys of a form object. *)
Definition formKeys : gset string :=
  {["title"; "priority"; "due_date"; "notes"; "tags"]}.

(** What [updateTask] makes of the value [v] found under key [k]. *)
Definition normalised (k : string) (v : jsval) : jsval :=
  match v with
  | VStr s =>
      if bool_decide (k = "tags") then VArr (tagsArray s)
      else if bool_decide (k = "due_date") || bool_decide (k = "notes") then
        match s with
        | [] => VNull
        | _ => v
        end
      else v
  | _ => v
  end.

(** ** The whole state of [App] and of its editor

    [App] holds the task list, the load indicator, the error banner, the
    tab, the search box, the tag filter, whether the editor is open and
    which task it edits; [TaskForm], always mounted, holds the form and
    its own busy flag.  [d_calls] lists, oldest first, what has been
    done to the outside world. *)

Inductive Call : Type :=
| CFetchTasks (params : list (string * jsstring))
| CRequest (r : Request)
| CConsoleError
| CAlert (msg : jsstring).

Record Dashboard : Type := mkDashboard {
  d_tasks : list Task;
  d_loading : bool;
  d_error : option jsstring;
  d_currentFilter : TaskFilter;
  d_searchQuery : jsstring;
  d_tagFilter : option jsstring;
  d_isFormOpen : bool;
  d_editingTask : option Task;
  d_formData : TaskFormData;
  d_formLoading : bool;
  d_calls : list Call
}.

Definition set_tasks (v : list Task) (s : Dashboard) : Dashboard :=
  mkDashboard v (d_loading s) (d_error s) (d_currentFilter s)
    (d_searchQuery s) (d_tagFilter s) (d_isFormOpen s) (d_editingTask s)
    (d_formData s) (d_formLoading s) (d_calls s).

Definition set_loading (v : bool) (s : Dashboard) : Dashboard :=
  mkDashboard (d_tasks s) v (d_error s) (d_currentFilter s)
    (d_searchQuery s) (d_tagFilter s) (d_isFormOpen s) (d_editingTask s)
    (d_formData s) (d_formLoading s) (d_calls s).

Definition set_error (v : option jsstring) (s : Dashboard) : Dashboard :=
  mkDashboard (d_tasks s) (d_loading s) v (d_currentFilter s)
    (d_searchQuery s) (d_tagFilter s) (d_isFormOpen s) (d_editingTask s)
    (d_formData s) (d_formLoading s) (d_calls s).

Definition set_isFormOpen (v : bool) (s : Dashboard) : Dashboard :=
  mkDashboard (d_tasks s) (d_loading s) (d_error s) (d_currentFilter s)
    (d_searchQuery s) (d_tagFilter s) v (d_editingTask s)
    (d_formData s) (d_formLoading s) (d_calls s).

Definition set_editingTask (v : option Task) (s : Dashboard) : Dashboard :=
  mkDashboard (d_tasks s) (d_loading s) (d_error s) (d_currentFilter s)
    (d_searchQuery s) (d_tagFilter s) (d_isFormOpen s) v
    (d_formData s) (d_formLoading s) (d_calls s).

Definition set_formData (v : TaskFormData) (s : Dashboard) : Dashboard :=
  mkDashboard (d_tasks s) (d_loading s) (d_error s) (d_currentFilter s)
    (d_searchQuery s) (d_tagFilter s) (d_isFormOpen s) (d_editingTask s)
    v (d_formLoading s) (d_calls s).

Definition set_formLoading (v : bool) (s : Dashboard) : Dashboard :=
  mkDashboard (d_tasks s) (d_loading s) (d_error s) (d_currentFilter s)
    (d_searchQuery s) (d_tagFilter s) (d_isFormOpen s) (d_editingTask s)
    (d_formData s) v (d_calls s).

Definition call (c : Call) (s : Dashboard) : Dashboard :=
  mkDashboard (d_tasks s) (d_loading s) (d_error s) (d_currentFilter s)
    (d_searchQuery s) (d_tagFilter s) (d_isFormOpen s) (d_editingTask s)
    (d_formData s) (d_formLoading s) (d_calls s ++ [c]).

(** *** [fetchTasks] and [loadTasks] *)

(** The query parameters of [fetchTasks], in the order they are
    appended; [search] and [tag] may be [undefined]. *)
Definition fetchTasks_params (showDone : bool) (search tag : option jsstring)
  : list (string * jsstring) :=
  [("show_done", if showDone then str "true" else str "false")]
  ++ (if truthy search then [("search", orEmpty search)] else [])
  ++ (if truthy tag then [("tag", orEmpty tag)] else []).

(** [o || undefined] *)
Definition orUndefined (o : option jsstring) : option jsstring :=
  if truthy o then o else None.

(** [Verbindung zum Server fehlgeschlagen. Läuft server.py?] *)
Definition loadFailedMsg : jsstring :=
  str "Verbindung zum Server fehlgeschlagen. L" ++ [228%N]
  ++ str "uft server.py?".

(** [loadTasks] up to its [await]. *)
Definition loadTasks_begin (s : Dashboard) : Dashboard :=
  let s := set_loading true s in
  let s := set_error None s in
  call (CFetchTasks (fetchTasks_params true (Some (d_searchQuery s))
                       (orUndefined (d_tagFilter s)))) s.

(** [loadTasks] after the [await]: [fetched] is what [fetchTasks]
    returned, [None] when it threw. *)
Definition loadTasks_resume (fetched : option (list Task)) (s : Dashboard)
  : Dashboard :=
  let s :=
    match fetched with
    | Some data => set_tasks data s
    | None => set_error (Some loadFailedMsg) s
    end in
  set_loading false s.

Definition loadTasks (fetched : option (list Task)) (s : Dashboard)
  : Dashboard :=
  loadTasks_resume fetched (loadTasks_begin s).

(** *** The editor *)

(** The form of a new task. *)
Definition emptyForm : TaskFormData :=
  {| f_title := []; f_priority := 3; f_due_date := []; f_notes := [];
     f_tags := [] |}.

(** The effect of [TaskForm] on [initialData] and [isOpen]: it runs
    when one of the two has changed, and fills the form when the editor
    is open. *)
Definition syncForm (s : Dashboard) : Dashboard :=
  if d_isFormOpen s then
    match d_editingTask s with
    | Some initialData => set_formData (formOfTask initialData) s
    | None => set_formData emptyForm s
    end
  else s.

Definition openEditModal (task : Task) (s : Dashboard) : Dashboard :=
  syncForm (set_isFormOpen true (set_editingTask (Some task) s)).

Definition openCreateModal (s : Dashboard) : Dashboard :=
  syncForm (set_isFormOpen true (set_editingTask None s)).

(** The [onClose] handed to [TaskForm]. *)
Definition onClose (s : Dashboard) : Dashboard :=
  syncForm (set_editingTask None (set_isFormOpen false s)).

(** [handleCreate]: [created] tells whether [createTask] returned or
    threw; the second component of the result tells whether the handler
    itself returned ([true]) or threw. *)
Definition handleCreate (data : TaskFormData) (created : bool)
           (fetched : option (list Task)) (s : Dashboard)
  : Dashboard * bool :=
  let s := call (CRequest (createTask_request data)) s in
  if created then (loadTasks fetched s, true) else (s, false).

(** [handleUpdate]. *)
Definition handleUpdate (data : TaskFormData) (updated : bool)
           (fetched : option (list Task)) (s : Dashboard)
  : Dashboard * bool :=
  match d_editingTask s with
  | Some editingTask =>
      let s := call (CRequest (updateTask_request (id editingTask)
                                 (formObject data))) s in
      if updated
      then (loadTasks fetched (syncForm (set_editingTask None s)), true)
      else (s, false)
  | None => (s, true)
  end.

Definition saveFailedMsg : jsstring := str "Fehler beim Speichern".

(** [handleSubmit] of [TaskForm]; [onSubmit] is [handleUpdate] when a
    task is being edited and [handleCreate] otherwise. *)
Definition handleSubmit (sent : bool) (fetched : option (list Task))
           (s : Dashboard) : Dashboard :=
  let onSubmit :=
    match d_editingTask s with
    | Some _ => handleUpdate
    | None => handleCreate
    end in
  let s := set_formLoading true s in
  let (s, returned) := onSubmit (d_formData s) sent fetched s in
  let s := if returned then onClose s
           else call (CAlert saveFailedMsg) (call CConsoleError s) in
  set_formLoading false s.

(** A dashboard showing [sampleTasks], nothing else going on. *)
Definition idleDashboard : Dashboard :=
  {| d_tasks := sampleTasks; d_loading := false; d_error := None;
     d_currentFilter := FilterAll; d_searchQuery := [];
     d_tagFilter := None; d_isFormOpen := false; d_editingTask := None;
     d_formData := emptyForm; d_formLoading := false; d_calls := [] |}.

(** The request [handleSubmit] sends for the state [s]: a PATCH of the
    task being edited, or a POST. *)
Definition saveRequest (s : Dashboard) : Request :=
  match d_editingTask s with
  | Some editingTask =>
      updateTask_request (id editingTask) (formObject (d_formData s))
  | None => createTask_request (d_formData s)
  end.

(** The reload request of the state [s]. *)
Definition reloadCall (s : Dashboard) : Call :=
  CFetchTasks (fetchTasks_params true (Some (d_searchQuery s))
                 (orUndefined (d_tagFilter s))).

(** *** The debounced reload

    The effect of [App] on [searchQuery, tagFilter] sets a timeout of
    300 ms that starts [loadTasks]; when one of the two changes, its
    clean-up clears the timeout that is still pending and a new one is
    set.  Time is the clock reading in milliseconds at which an event is
    handled; a timeout that is due is handled before a later event. *)

Definition set_searchQuery (v : jsstring) (s : Dashboard) : Dashboard :=
  mkDashboard (d_tasks s) (d_loading s) (d_error s) (d_currentFilter s)
    v (d_tagFilter s) (d_isFormOpen s) (d_editingTask s)
    (d_formData s) (d_formLoading s) (d_calls s).

(** The dashboard and the deadline of its pending timeout. *)
Record Timed : Type := mkTimed {
  board : Dashboard;
  timer : option Z
}.

Definition debounceMs : Z := 300.

(** The effect runs at time [now]: [setTimeout(..., 300)], any earlier
    timeout having been cleared. *)
Definition rearm (now : Z) (s : Dashboard) : Timed :=
  {| board := s; timer := Some (now + debounceMs) |}.

(** Time has advanced to [now]: a timeout that is due calls [loadTasks],
    which runs up to its [await]. *)
Definition elapse (now : Z) (w : Timed) : Timed :=
  match timer w with
  | Some deadline =>
      if deadline <=? now
      then {| board := loadTasks_begin (board w); timer := None |}
      else w
  | None => w
  end.

(** [onChange] of the search box at time [now]: [setSearchQuery(q)].
    Setting the value the state already has causes no render and so no
    effect. *)
Definition typeSearch (now : Z) (q : jsstring) (w : Timed) : Timed :=
  let w := elapse now w in
  if bool_decide (q = d_searchQuery (board w)) then w
  else rearm now (set_searchQuery q (board w)).

(** A run of key strokes, each with the time it is handled at. *)
Definition typeAll (keys : list (Z * jsstring)) (w : Timed) : Timed :=
  List.fold_left (fun w k => typeSearch (fst k) (snd k) w) keys w.

(** Each key stroke changes the text and follows the one before in less
    than the debounce delay; [t] and [q] are the time and text before
    the first of them. *)
Fixpoint burst (t : Z) (q : jsstring) (keys : list (Z * jsstring)) : Prop :=
  match keys with
  | [] => True
  | (t', q') :: keys' =>
      t <= t' /\ t' < t + debounceMs /\ q' <> q /\ burst t' q' keys'
  end.

(** The time and the text of the last key stroke. *)
Definition lastKey (t : Z) (q : jsstring) (keys : list (Z * jsstring))
  : Z * jsstring :=
  List.last keys (t, q).

(** ** The documents of a card ([TaskCard]) *)

Record TaskDocument : Type := mkDocument {
  doc_id : Z;
  task_id : Z;
  original_name : jsstring;
  content_type : option jsstring;
  size : Z;
  doc_created_at : jsstring;
  download_url : jsstring
}.

Section Card.

(** The files of the browser, whatever they are. *)
Context {File : Type}.

Inductive CardCall : Type :=
| CFetchDocuments (taskId : Z)
| CUploadDocument (taskId : Z) (file : File)
| CConfirmDocument (msg : jsstring)
| CDeleteDocument (docId : Z).

(** The state of a card and the value of its file input. *)
Record Card : Type := mkCard {
  documents : list TaskDocument;
  docsLoading : bool;
  docsError : option jsstring;
  inputValue : jsstring;
  c_calls : list CardCall
}.

Definition set_documents (v : list TaskDocument) (c : Card) : Card :=
  mkCard v (docsLoading c) (docsError c) (inputValue c) (c_calls c).

Definition set_docsLoading (v : bool) (c : Card) : Card :=
  mkCard (documents c) v (docsError c) (inputValue c) (c_calls c).

Definition set_docsError (v : option jsstring) (c : Card) : Card :=
  mkCard (documents c) (docsLoading c) v (inputValue c) (c_calls c).

Definition set_inputValue (v : jsstring) (c : Card) : Card :=
  mkCard (documents c) (docsLoading c) (docsError c) v (c_calls c).

Definition cardCall (k : CardCall) (c : Card) : Card :=
  mkCard (documents c) (docsLoading c) (docsError c) (inputValue c)
    (c_calls c ++ [k]).

Definition docsLoadFailedMsg : jsstring :=
  str "Dokumente konnten nicht geladen werden".

Definition uploadFailedMsg : jsstring := str "Upload fehlgeschlagen".

(** [Löschen fehlgeschlagen] *)
Definition docDeleteFailedMsg : jsstring :=
  str "L" ++ [246%N] ++ str "schen fehlgeschlagen".

(** [Dokument wirklich löschen?] *)
Definition confirmDocumentMsg : jsstring :=
  str "Dokument wirklich l" ++ [246%N] ++ str "schen?".

(** [loadDocuments]: [fetched] is what [fetchDocuments] returned, [None]
    when it threw. *)
Definition loadDocuments (task : Task) (fetched : option (list TaskDocument))
           (c : Card) : Card :=
  let c := set_docsLoading true c in
  let c := set_docsError None c in
  let c := cardCall (CFetchDocuments (id task)) c in
  let c :=
    match fetched with
    | Some docs => set_documents docs c
    | None => set_docsError (Some docsLoadFailedMsg) c
    end in
  set_docsLoading false c.

(** [handleFileChange]: [file] is [event.target.files?.[0]], [uploaded]
    what [uploadDocument] returned, [None] when it threw. *)
Definition handleFileChange (task : Task) (file : option File)
           (uploaded : option TaskDocument) (c : Card) : Card :=
  match file with
  | None => c
  | Some f =>
      let c := set_docsLoading true c in
      let c := set_docsError None c in
      let c := cardCall (CUploadDocument (id task) f) c in
      let c :=
        match uploaded with
        | Some newDoc => set_documents (newDoc :: documents c) c
        | None => set_docsError (Some uploadFailedMsg) c
        end in
      let c := set_inputValue [] c in
      set_docsLoading false c
  end.

(** [handleDeleteDocument]: [confirmed] is the answer of
    [window.confirm], [ok] whether [deleteDocument] returned or threw. *)
Definition handleDeleteDocument (i : Z) (confirmed ok : bool) (c : Card)
  : Card :=
  let c := cardCall (CConfirmDocument confirmDocumentMsg) c in
  if negb confirmed then c
  else
    let c := cardCall (CDeleteDocument i) c in
    if ok
    then set_documents
           (List.filter (fun d => negb (doc_id d =? i)) (documents c)) c
    else set_docsError (Some docDeleteFailedMsg) c.

End Card.

(** Two documents of task 2 and a card showing the first. *)
Definition docA : TaskDocument :=
  mkDocument 1 2 (str "plan.pdf") (Some (str "application/pdf")) 1024
    (str "2024-01-10T08:00:00") (str "/documents/1").

Definition docB : TaskDocument :=
  mkDocument 2 2 (str "notiz.txt") None 12
    (str "2024-01-11T08:00:00") (str "/documents/2").

Definition sampleCard : @Card jsstring :=
  {| documents := [docA]; docsLoading := false; docsError := None;
     inputValue := str "C:\fakepath\notiz.txt"; c_calls := [] |}.

(** Three open tasks of priority 1; the first and the last are due on
    the same day. *)
Definition tiedTasks : list Task :=
  [dupB; sampleTask 3 1 false None; dupA].

(** ** The date tabs in a zone whose offset changes

    [Clock] gives the zone one offset.  Where daylight saving applies the
    offset depends on the instant.  [utcOffset z t] is the offset in
    force at the instant [t], the one [toDateString] and the local fields
    of a date are computed with (ECMAScript's [LocalTZA(t, true)]);
    [localOffset z l] is the offset [setHours] converts the local time
    value [l] back with ([LocalTZA(l, false)]). *)

Record TimeZone : Type := mkZone {
  utcOffset : Z -> Z;
  localOffset : Z -> Z
}.

(** Local calendar day that the instant [t] falls on. *)
Definition localDayIn (z : TimeZone) (t : Z) : Z :=
  (t + utcOffset z t) / msPerDay.

(** [d.toDateString()] *)
Definition toDateStringIn (z : TimeZone) (d : option Z) : option Z :=
  match d with
  | Some t => Some (localDayIn z t)
  | None => None
  end.

(** [d.setHours(0,0,0,0)]: the local time value of midnight of [d]'s
    local day, converted back to an instant. *)
Definition setHours0In (z : TimeZone) (t : Z) : Z :=
  let l := localDayIn z t * msPerDay in
  l - localOffset z l.

Section EngineIn.

Variable z : TimeZone.
Variable now : Z.

(** [!t.done && t.due_date &&
     new Date(t.due_date).toDateString() === todayStr] *)
Definition keepTodayIn (t : Task) : bool :=
  negb (done t) && truthy (due_date t)
  && dateStringEq (toDateStringIn z (dueTime t)) (toDateStringIn z (Some now)).

(** [!t.done && t.due_date && new Date(t.due_date) < now] *)
Definition keepOverdueIn (t : Task) : bool :=
  negb (done t) && truthy (due_date t)
  && dateLt (dueTime t) (setHours0In z now).

Definition applyFilterIn (f : TaskFilter) (ts : list Task) : list Task :=
  match f with
  | FilterOpen => List.filter keepOpen ts
  | FilterToday => List.filter keepTodayIn ts
  | FilterOverdue => List.filter keepOverdueIn ts
  | FilterAll => ts
  end.

End EngineIn.

Definition filteredTasksIn (z : TimeZone) (now : Z) (f : TaskFilter)
           (ts : list Task) : list Task :=
  Array_sort compareTasks (applyFilterIn z now f ts).

(** The zone of a [Clock]: the same offset at every instant. *)
Definition fixedZone (offset : Z) : TimeZone :=
  {| utcOffset := fun _ => offset; localOffset := fun _ => offset |}.

(** Central European time around 2024-03-31: one hour east of UTC until
    01:00 UTC of that day (02:00 local), two hours from then on. *)
Definition zoneCentralEurope : TimeZone :=
  {| utcOffset := fun t => if t <? 1711846800000 then 3600000 else 7200000;
     localOffset := fun l => if l <? 1711850400000 then 3600000 else 7200000 |}.

(** 2024-03-31, 12:00 local time there (10:00 UTC). *)
Definition noonCentralEurope : Z := 1711879200000.

(** Eastern time around 2024-03-10: five hours west of UTC until 07:00
    UTC of that day (02:00 local), four hours from then on. *)
Definition zoneEastern : TimeZone :=
  {| utcOffset := fun t => if t <? 1710054000000 then -18000000 else -14400000;
     localOffset :=
       fun l => if l <? 1710036000000 then -18000000 else -14400000 |}.

(** 2024-03-10, 12:00 local time there (16:00 UTC). *)
Definition noonEastern : Z := 1710086400000.

Definition dueMar30Task : Task := sampleTask 11 2 false (Some (str "2024-03-30")).
Definition dueMar31Task : Task := sampleTask 12 2 false (Some (str "2024-03-31")).
Definition dueMar10Task : Task := sampleTask 13 2 false (Some (str "2024-03-10")).
Definition dueMar11Task : Task := sampleTask 14 2 false (Some (str "2024-03-11")).

(** * Properties *)

(** ** The sort *)

Section ArraySortFacts.

Context {A : Type}.
Variable comparefn : A -> A -> option Z.

Lemma insertSorted_perm x l :
  Permutation (insertSorted comparefn x l) (x :: l).
Proof.
  induction l as [|y l IH]; simpl; [reflexivity|].
  destruct (sortCompare comparefn x y <=? 0); [reflexivity|].
  rewrite IH. apply perm_swap.
Qed.

Lemma Array_sort_perm l : Permutation (Array_sort comparefn l) l.
Proof.
  induction l as [|x l IH]; simpl; [reflexivity|].
  rewrite insertSorted_perm. now apply perm_skip.
Qed.

Lemma Array_sort_length l : length (Array_sort comparefn l) = length l.
Proof. apply Permutation_length, Array_sort_perm. Qed.

Lemma Array_sort_In x l : In x (Array_sort comparefn l) <-> In x l.
Proof.
  split; apply Permutation_in; [|symmetry]; apply Array_sort_perm.
Qed.

Lemma insertSorted_head x l :
  HdRel (inOrder comparefn) x l -> insertSorted comparefn x l = x :: l.
Proof.
  destruct 1 as [|y l H]; simpl; [reflexivity|].
  unfold inOrder in H. apply Z.leb_le in H. now rewrite H.
Qed.

(** Sorting a list whose neighbours are in order changes nothing. *)
Lemma Array_sort_fixed l :
  Sorted (inOrder comparefn) l -> Array_sort comparefn l = l.
Proof.
  induction 1 as [|x l Hs IH Hd]; simpl; [reflexivity|].
  rewrite IH. now apply insertSorted_head.
Qed.

Lemma insertSorted_sorted x l :
  signConsistent comparefn -> Sorted (inOrder comparefn) l ->
  Sorted (inOrder comparefn) (insertSorted comparefn x l).
Proof.
  intros Hc. induction 1 as [|y l Hs IH Hd]; simpl.
  - repeat constructor.
  - destruct (sortCompare comparefn x y <=? 0) eqn:E.
    + apply Z.leb_le in E. repeat constructor; assumption.
    + apply Z.leb_gt in E. constructor; [exact IH|].
      destruct Hd as [|z l Hyz]; simpl.
      * constructor. now apply Hc.
      * destruct (sortCompare comparefn x z <=? 0); constructor;
          [now apply Hc | exact Hyz].
Qed.

Lemma Array_sort_sorted l :
  signConsistent comparefn -> Sorted (inOrder comparefn) (Array_sort comparefn l).
Proof.
  intros Hc. induction l as [|x l IH]; simpl; [constructor|].
  now apply insertSorted_sorted.
Qed.

Lemma Array_sort_idempotent l :
  signConsistent comparefn ->
  Array_sort comparefn (Array_sort comparefn l) = Array_sort comparefn l.
Proof. intros Hc. apply Array_sort_fixed, Array_sort_sorted, Hc. Qed.

(** Stability: the members of a class of elements that the comparator
    does not separate come out in the order they went in. *)
Lemma insertSorted_class (C : A -> bool) x l :
  (forall a b, C a = true -> C b = true -> inOrder comparefn a b) ->
  List.filter C (insertSorted comparefn x l) = List.filter C (x :: l).
Proof.
  intros HC. induction l as [|y l IH]; [reflexivity|].
  simpl insertSorted.
  destruct (sortCompare comparefn x y <=? 0) eqn:E; [reflexivity|].
  apply Z.leb_gt in E.
  change (List.filter C (y :: insertSorted comparefn x l))
    with (if C y then y :: List.filter C (insertSorted comparefn x l)
          else List.filter C (insertSorted comparefn x l)).
  rewrite IH. simpl.
  destruct (C x) eqn:Ex, (C y) eqn:Ey; try reflexivity.
  specialize (HC x y Ex Ey). unfold inOrder in HC. lia.
Qed.

Lemma Array_sort_stable (C : A -> bool) l :
  (forall a b, C a = true -> C b = true -> inOrder comparefn a b) ->
  List.filter C (Array_sort comparefn l) = List.filter C l.
Proof.
  intros HC. induction l as [|x l IH]; [reflexivity|].
  simpl Array_sort. rewrite insertSorted_class by exact HC.
  simpl. now rewrite IH.
Qed.

(** With a transitive comparator neighbours in order means all pairs in
    order. *)
Lemma Array_sort_strongly_sorted l :
  signConsistent comparefn ->
  (forall x y z, inOrder comparefn x y -> inOrder comparefn y z ->
                 inOrder comparefn x z) ->
  StronglySorted (inOrder comparefn) (Array_sort comparefn l).
Proof.
  intros Hc Ht. apply Sorted_StronglySorted; [exact Ht|].
  now apply Array_sort_sorted.
Qed.

End ArraySortFacts.

Lemma filter_all_true {A : Type} (p : A -> bool) (l : list A) :
  (forall x, In x l -> p x = true) -> List.filter p l = l.
Proof.
  induction l as [|x l IH]; intros H; simpl; [reflexivity|].
  rewrite (H x) by now left. f_equal. apply IH. intros; apply H; now right.
Qed.

(** ** The comparator of the task list *)

Lemma compareTasks_signConsistent : signConsistent compareTasks.
Proof.
  intros a b. unfold sortCompare, compareTasks.
  rewrite (Z.eqb_sym (priority b) (priority a)).
  destruct (done a), (done b); simpl; try lia;
    (destruct (priority a =? priority b) eqn:Ep; simpl; [|lia]);
    destruct (truthy (due_date a)), (truthy (due_date b)); simpl; try lia;
    destruct (dueTime a), (dueTime b); lia.
Qed.

Lemma dueTime_dueDay t :
  dueTime t = match dueDay t with Some d => Some (d * msPerDay) | None => None end.
Proof. unfold dueTime, dueDay, Date_parse. now destruct (due_date t). Qed.

Lemma dueDay_truthy t d : dueDay t = Some d -> truthy (due_date t) = true.
Proof.
  unfold dueDay. destruct (due_date t) as [[|c s]|]; simpl; try discriminate.
  reflexivity.
Qed.

Lemma dueClass_inOrder d p s a b :
  dueClass d p s a = true -> dueClass d p s b = true ->
  inOrder compareTasks a b.
Proof.
  unfold dueClass. intros Ha Hb.
  apply andb_prop in Ha as [Ha Ha4]. apply andb_prop in Ha as [Ha Ha3].
  apply andb_prop in Ha as [Ha1 Ha2].
  apply andb_prop in Hb as [Hb Hb4]. apply andb_prop in Hb as [Hb _].
  apply andb_prop in Hb as [Hb1 Hb2].
  apply bool_decide_eq_true in Ha4, Hb4.
  apply Bool.eqb_prop in Ha1, Hb1. apply Z.eqb_eq in Ha2, Hb2.
  unfold inOrder, sortCompare, compareTasks, dueTime.
  rewrite Ha1, Hb1, Ha2, Hb2, Ha4, Hb4, Ha3, Bool.eqb_reflx, Z.eqb_refl.
  simpl. destruct (Date_parse s); lia.
Qed.

(** On tasks whose due dates are calendar dates the comparator is
    transitive. *)
Lemma compareTasks_transitive a b c :
  validDue a -> validDue b -> validDue c ->
  inOrder compareTasks a b -> inOrder compareTasks b c ->
  inOrder compareTasks a c.
Proof.
  unfold validDue, inOrder, sortCompare, compareTasks.
  rewrite !dueTime_dueDay. intros Va Vb Vc.
  destruct (done a), (done b), (done c); simpl; try lia;
    destruct (Z.eqb_spec (priority a) (priority b));
    destruct (Z.eqb_spec (priority b) (priority c));
    destruct (Z.eqb_spec (priority a) (priority c)); simpl; try lia;
    destruct (truthy (due_date a)), (truthy (due_date b)),
             (truthy (due_date c)); simpl; try lia;
    try (destruct (dueDay a); [|now elim Va]);
    try (destruct (dueDay b); [|now elim Vb]);
    try (destruct (dueDay c); [|now elim Vc]); unfold msPerDay; lia.
Qed.

(** Where the comparator and the order of the specification agree: on
    every pair of tasks with calendar due dates, except two dated tasks
    that tie on completion, priority and date. *)
Lemma compareTasks_spec_before a b :
  validDue a -> validDue b ->
  ~ (done a = done b /\ priority a = priority b
     /\ dueDay a = dueDay b /\ dueDay a <> None) ->
  (sortCompare compareTasks a b < 0 <-> spec_before a b = true).
Proof.
  unfold validDue, sortCompare, compareTasks, spec_before.
  rewrite !dueTime_dueDay. intros Va Vb Hne.
  pose proof (dueDay_truthy a) as Ta; pose proof (dueDay_truthy b) as Tb.
  destruct (done a) eqn:Da, (done b) eqn:Db; simpl.
  2:{ split; [lia|discriminate]. }
  2:{ split; [reflexivity|lia]. }
  all: destruct (Z.eqb_spec (priority a) (priority b)) as [Ep|Ep]; simpl;
     [|rewrite Z.ltb_lt; lia].
  all: destruct (dueDay a) as [x|] eqn:Ea, (dueDay b) as [y|] eqn:Eb.
  all: try rewrite (Ta _ eq_refl); try rewrite (Tb _ eq_refl); simpl.
  all: try (destruct (truthy (due_date a)); [now elim Va|]).
  all: try (destruct (truthy (due_date b)); [now elim Vb|]); simpl.
  all: try (split; [lia|discriminate]).
  all: try (split; [reflexivity|lia]).
  all: try (rewrite Z.ltb_lt; lia).
  all: destruct (Z.eqb_spec x y) as [Exy|Exy];
    [exfalso; apply Hne; repeat split; congruence
    |rewrite Z.ltb_lt; unfold msPerDay; lia].
Qed.

Lemma applyFilter_In clk f ts t :
  In t (applyFilter clk f ts) ->
  In t ts /\ applyFilter clk f [t] = [t].
Proof.
  destruct f; simpl; [intros H; now split| | |];
    rewrite filter_In; intros [Hin Hp]; rewrite Hp; now split.
Qed.

Lemma applyFilter_fixed clk f ts :
  (forall t, In t ts -> applyFilter clk f [t] = [t]) ->
  applyFilter clk f ts = ts.
Proof.
  intros H. destruct f; simpl; [reflexivity| | |];
    apply filter_all_true; intros t Ht; specialize (H t Ht); simpl in H;
    match goal with
    | H : (if ?c then _ else _) = _ |- _ => destruct c; [reflexivity|discriminate]
    end.
Qed.

(** The output of the engine is a rearrangement of the tasks the tab
    keeps. *)
Lemma filteredTasks_perm clk f ts :
  Permutation (filteredTasks clk f ts) (applyFilter clk f ts).
Proof. apply Array_sort_perm. Qed.

Lemma Sorted_StronglySorted_within {A : Type} (R : A -> A -> Prop)
      (P : A -> Prop) (l : list A) :
  (forall x y z, P x -> P y -> P z -> R x y -> R y z -> R x z) ->
  Forall P l -> Sorted R l -> StronglySorted R l.
Proof.
  intros Ht HP Hs.
  set (R' := fun x y => P x /\ P y /\ R x y).
  assert (Hs' : Sorted R' l).
  { induction Hs as [|x l Hs IH Hd]; constructor.
    - apply IH. now inversion HP.
    - inversion HP as [|? ? Px Pl]; subst.
      destruct Hd as [|y l Hxy]; constructor.
      inversion Pl; subst. now repeat split. }
  apply Sorted_StronglySorted in Hs'.
  - clear -Hs'. induction Hs' as [|x l Hs IH Hall]; constructor; [exact IH|].
    eapply List.Forall_impl; [|exact Hall]. intros y (_ & _ & Hxy). exact Hxy.
  - intros x y z (Px & Py & Hxy) (_ & Pz & Hyz). repeat split; eauto.
Qed.

(** On a list with calendar due dates every task of the output is in
    order with every later one. *)
Lemma filteredTasks_strongly_sorted clk f ts :
  Forall validDue ts ->
  StronglySorted (inOrder compareTasks) (filteredTasks clk f ts).
Proof.
  intros Hv.
  apply Sorted_StronglySorted_within with (P := validDue).
  - intros x y z. apply compareTasks_transitive.
  - rewrite List.Forall_forall in *. intros t Ht. apply Hv.
    apply Array_sort_In in Ht. now apply applyFilter_In in Ht.
  - apply Array_sort_sorted, compareTasks_signConsistent.
Qed.

(** C9. For a fixed clock and a task list of the data model (every due
    date that is present is a calendar date) the filter-and-sort function
    is idempotent: applied to its own output it returns the same
    sequence; sorting a sorted list again returns it unchanged; and the
    sort is stable: tasks the comparator does not separate (same
    completion, priority and due date) leave it in the order they
    entered.  On such lists the comparator is consistent, so the stable
    sorted order, which [Array_sort] computes, is the one every engine
    returns. *)
Theorem filteredTasks_idempotent (clk : Clock) (f : TaskFilter) (ts : list Task) :
  Forall validDue ts ->
  filteredTasks clk f (filteredTasks clk f ts) = filteredTasks clk f ts
  /\ Array_sort compareTasks (Array_sort compareTasks ts)
     = Array_sort compareTasks ts
  /\ (forall d p s,
        List.filter (dueClass d p s) (filteredTasks clk f ts)
        = List.filter (dueClass d p s) (applyFilter clk f ts)).
Proof.
  intros _. split; [|split].
  - unfold filteredTasks at 1.
    rewrite applyFilter_fixed.
    + apply Array_sort_idempotent, compareTasks_signConsistent.
    + intros t Ht. apply Array_sort_In in Ht.
      now apply applyFilter_In in Ht.
  - apply Array_sort_idempotent, compareTasks_signConsistent.
  - intros d p s. apply Array_sort_stable.
    intros a b. apply dueClass_inOrder.
Qed.

Lemma filteredTasks_idempotent_witness :
  Forall validDue tiedTasks
  /\ filteredTasks noonEast FilterOpen
       (filteredTasks noonEast FilterOpen tiedTasks)
     = filteredTasks noonEast FilterOpen tiedTasks
  /\ List.filter (dueClass false 1 (str "2024-01-15"))
       (filteredTasks noonEast FilterOpen tiedTasks)
     = [dupB; dupA].
Proof.
  assert (Hv : Forall validDue tiedTasks).
  { unfold tiedTasks.
    repeat (apply List.Forall_cons;
            [unfold validDue; vm_compute; congruence|]).
    apply List.Forall_nil. }
  split; [exact Hv|].
  destruct (filteredTasks_idempotent noonEast FilterOpen tiedTasks Hv)
    as (H1 & _ & H3).
  split; [exact H1|].
  rewrite H3. vm_compute. reflexivity.
Defined.

(** C1, at the input where the code leaves the stated order: two open
    tasks of equal priority and equal due date.  The specification puts
    the higher identifier first; the comparator answers 0 for the pair in
    both directions, so the sort keeps the order of the input. *)
Theorem equal_due_dates_keep_input_order :
  spec_before dupB dupA = true
  /\ compareTasks dupA dupB = Some 0
  /\ compareTasks dupB dupA = Some 0
  /\ filteredTasks noonEast FilterAll [dupA; dupB] = [dupA; dupB]
  /\ filteredTasks noonEast FilterAll [dupB; dupA] = [dupB; dupA].
Proof. repeat split; vm_compute; reflexivity. Qed.

(** ** Day boundaries *)

Lemma localDay_setHours0 clk t : localDay clk (setHours0 clk t) = localDay clk t.
Proof.
  unfold setHours0, localDay.
  replace ((t + localTZA clk) / msPerDay * msPerDay - localTZA clk + localTZA clk)
    with ((t + localTZA clk) / msPerDay * msPerDay) by lia.
  apply Z.div_mul. unfold msPerDay. lia.
Qed.

Lemma startOfToday_localMidnight clk :
  startOfToday clk = localMidnight clk (currentLocalDay clk).
Proof. reflexivity. Qed.

(** The date that [new Date(s)] builds falls on the local calendar day
    [s] names exactly when local time is not behind UTC. *)
Lemma localDay_utc_midnight clk d :
  0 <= localTZA clk < msPerDay -> localDay clk (d * msPerDay) = d.
Proof.
  intros H. unfold localDay.
  rewrite Z.add_comm, Z.div_add by (unfold msPerDay; lia).
  rewrite Z.div_small by exact H. lia.
Qed.

Lemma localDay_utc_midnight_west clk d :
  - msPerDay <= localTZA clk < 0 -> localDay clk (d * msPerDay) = d - 1.
Proof.
  intros H. unfold localDay.
  replace (d * msPerDay + localTZA clk)
    with ((localTZA clk + msPerDay) + (d - 1) * msPerDay) by lia.
  rewrite Z.div_add by (unfold msPerDay; lia).
  rewrite Z.div_small by lia. lia.
Qed.

(** East of Greenwich (and on it) the predicates of the two date tabs
    are the ones the specification states. *)
Lemma keep_east clk t :
  0 <= localTZA clk < msPerDay ->
  keepToday clk t = spec_today clk t /\ keepOverdue clk t = spec_overdue clk t.
Proof.
  intros H. unfold keepToday, keepOverdue, spec_today, spec_overdue, todayStr.
  rewrite startOfToday_localMidnight, dueTime_dueDay.
  pose proof (dueDay_truthy t) as Ht.
  destruct (dueDay t) as [d|] eqn:Ed; simpl.
  - rewrite (Ht d eq_refl), (localDay_utc_midnight clk d H), !andb_true_r.
    simpl. split; [reflexivity|]. f_equal.
    unfold localMidnight, currentLocalDay, msPerDay in *.
    destruct (Z.ltb_spec (d * 86400000)
                (localDay clk (nowMs clk) * 86400000 - localTZA clk));
      symmetry; [apply Z.ltb_lt|apply Z.ltb_ge]; lia.
  - rewrite !andb_false_r. now split.
Qed.

Lemma filter_ext_eq {A : Type} (p q : A -> bool) (l : list A) :
  (forall x, p x = q x) -> List.filter p l = List.filter q l.
Proof.
  intros H. induction l as [|x l IH]; simpl; [reflexivity|].
  now rewrite H, IH.
Qed.

(** So there the output of the engine is the sub-collection the
    specification states, in sorted order. *)
Lemma filteredTasks_spec_east clk f ts :
  0 <= localTZA clk < msPerDay ->
  Permutation (filteredTasks clk f ts) (List.filter (spec_keep clk f) ts).
Proof.
  intros H. rewrite filteredTasks_perm.
  destruct f; simpl.
  - now rewrite filter_all_true.
  - reflexivity.
  - erewrite filter_ext_eq; [reflexivity|]. intros t. apply keep_east, H.
  - erewrite filter_ext_eq; [reflexivity|]. intros t. apply keep_east, H.
Qed.

(** West of Greenwich an open task due on the current local day is
    filed under overdue and not under today. *)
Lemma due_today_west clk t :
  - msPerDay <= localTZA clk < 0 ->
  done t = false -> dueDay t = Some (currentLocalDay clk) ->
  keepToday clk t = false /\ keepOverdue clk t = true.
Proof.
  intros H Hd Hdue. unfold keepToday, keepOverdue, todayStr.
  rewrite startOfToday_localMidnight, dueTime_dueDay, Hdue, Hd.
  rewrite (dueDay_truthy t _ Hdue). simpl.
  rewrite (localDay_utc_midnight_west clk _ H). split.
  - apply Z.eqb_neq. unfold currentLocalDay. lia.
  - apply Z.ltb_lt. unfold localMidnight. lia.
Qed.

(** C4, at the input where the code leaves it: at noon of 2024-01-15 in
    a zone five hours west of UTC, an open task due 2024-01-15 is due on
    the current local day; the engine (and the card) file it under
    overdue and not under today. *)
Theorem due_today_filed_overdue_west_of_utc :
  dueDay dueTodayTask = Some (currentLocalDay noonWest)
  /\ done dueTodayTask = false
  /\ filteredTasks noonWest FilterToday [dueTodayTask] = []
  /\ filteredTasks noonWest FilterOverdue [dueTodayTask] = [dueTodayTask]
  /\ isDueToday noonWest dueTodayTask = false
  /\ isOverdue noonWest dueTodayTask = true.
Proof. repeat split; vm_compute; reflexivity. Qed.

(** C2, at the input where the code leaves it: the same clock and three
    open tasks due the day before, on, and the day after the current
    local day.  The stated predicates keep the middle one for today and
    the first for overdue; the engine returns the last one for today and
    the first two for overdue. *)
Theorem date_tabs_shifted_west_of_utc :
  List.filter (spec_keep noonWest FilterToday) threeDays = [dueTodayTask]
  /\ filteredTasks noonWest FilterToday threeDays = [dueTomorrowTask]
  /\ List.filter (spec_keep noonWest FilterOverdue) threeDays
     = [dueYesterdayTask]
  /\ filteredTasks noonWest FilterOverdue threeDays
     = [dueYesterdayTask; dueTodayTask].
Proof. repeat split; vm_compute; reflexivity. Qed.

(** ** Stats *)

Lemma statsNow_startOfToday clk : statsNow clk = startOfToday clk.
Proof. reflexivity. Qed.

Lemma statsDueToday_keepToday clk t : statsDueToday clk t = keepToday clk t.
Proof.
  unfold statsDueToday, keepToday, todayStr, statsNow, toDateString.
  now rewrite localDay_setHours0.
Qed.

Lemma statsOverdue_keepOverdue clk t : statsOverdue clk t = keepOverdue clk t.
Proof. reflexivity. Qed.

Lemma count_filter_length (p : Task -> bool) ts :
  count p ts = Z.of_nat (length ts) - count (fun t => negb (p t)) ts.
Proof.
  unfold count. induction ts as [|t ts IH]; simpl; [reflexivity|].
  destruct (p t); simpl; lia.
Qed.

(** C3. The stats are a function of the task list (and the clock): the
    total is the length of the list, open counts the tasks with
    [done = false], done is total minus open (the number of tasks with
    [done = true]), and the due-today and overdue counts are the sizes of
    what the filter engine returns for the today and overdue tabs. *)
Theorem stats_counts (clk : Clock) (ts : list Task) :
  total (stats clk ts) = Z.of_nat (length ts)
  /\ open (stats clk ts) = count (fun t => negb (done t)) ts
  /\ open (stats clk ts) = Z.of_nat (length (filteredTasks clk FilterOpen ts))
  /\ doneCount (stats clk ts) = total (stats clk ts) - open (stats clk ts)
  /\ doneCount (stats clk ts) = count done ts
  /\ dueToday (stats clk ts) = count (keepToday clk) ts
  /\ dueToday (stats clk ts)
     = Z.of_nat (length (filteredTasks clk FilterToday ts))
  /\ overdue (stats clk ts) = count (keepOverdue clk) ts
  /\ overdue (stats clk ts)
     = Z.of_nat (length (filteredTasks clk FilterOverdue ts)).
Proof.
  assert (Hd : dueToday (stats clk ts) = count (keepToday clk) ts).
  { unfold stats, count; simpl. do 2 f_equal.
    apply filter_ext_eq, statsDueToday_keepToday. }
  unfold filteredTasks. rewrite !Array_sort_length.
  repeat split; try reflexivity; try exact Hd.
  unfold stats; simpl.
  rewrite (count_filter_length done ts). lia.
Qed.

(** The three-field [stats] of [App.tsx] is the five-field one without
    the two date counts. *)
Lemma statsBasic_stats clk ts :
  statsBasic ts
  = (total (stats clk ts), open (stats clk ts), doneCount (stats clk ts)).
Proof. reflexivity. Qed.

(** ** Tags through the form *)

Lemma split_no_sep sep t : ~ In sep t -> split sep t = [t].
Proof.
  induction t as [|c t IH]; intros H; simpl; [reflexivity|].
  destruct (N.eqb_spec c sep) as [->|Hne]; [elim H; now left|].
  rewrite IH; [reflexivity|]. intros Hin. apply H. now right.
Qed.

Lemma split_app_sep sep t rest :
  ~ In sep t -> split sep (t ++ sep :: rest) = t :: split sep rest.
Proof.
  induction t as [|c t IH]; intros H; simpl.
  - now rewrite N.eqb_refl.
  - destruct (N.eqb_spec c sep) as [->|Hne]; [elim H; now left|].
    rewrite IH; [reflexivity|]. intros Hin. apply H. now right.
Qed.

Lemma split_join_cons t l :
  ~ In comma t -> Forall (fun t => ~ In comma t) l ->
  split comma (join (str ", ") (t :: l)) = t :: List.map (cons space) l.
Proof.
  intros Ht Hl. revert t Ht.
  induction Hl as [|t' l' Ht' Hl' IH]; intros t Ht.
  - simpl. now apply split_no_sep.
  - change (join (str ", ") (t :: t' :: l'))
      with (t ++ comma :: space :: join (str ", ") (t' :: l')).
    rewrite split_app_sep by exact Ht. f_equal.
    change (split comma (space :: join (str ", ") (t' :: l')))
      with (match split comma (join (str ", ") (t' :: l')) with
            | seg :: segs => (space :: seg) :: segs
            | [] => [[space]]
            end).
    now rewrite IH.
Qed.

(** The segments of the joined tags: the first tag, then every other tag
    behind the space that follows its comma. *)
Lemma split_join l :
  Forall (fun t => ~ In comma t) l ->
  split comma (join (str ", ") l)
  = match l with
    | [] => [[]]
    | t :: l' => t :: List.map (cons space) l'
    end.
Proof.
  destruct 1 as [|t l Ht Hl]; [reflexivity|]. now apply split_join_cons.
Qed.

Lemma trim_space t : trim (space :: t) = trim t.
Proof. reflexivity. Qed.

Lemma tagsArray_join l :
  Forall cleanTag l -> tagsArray (join (str ", ") l) = l.
Proof.
  intros H. unfold tagsArray. rewrite split_join.
  2:{ eapply List.Forall_impl; [|exact H]. now intros t (_ & _ & Hc). }
  assert (Hk : forall l', Forall cleanTag l' ->
             List.filter (fun t => (0 <? length t)%nat)
               (List.map trim (List.map (cons space) l')) = l').
  { induction 1 as [|t l' (Hne & Htr & _) _ IH]; [reflexivity|].
    simpl List.map. rewrite trim_space, Htr. simpl List.filter.
    destruct t as [|c t]; [now elim Hne|]. simpl. now rewrite IH. }
  destruct H as [|t l (Hne & Htr & _) Hl]; [reflexivity|].
  simpl List.map. rewrite Htr. simpl List.filter.
  destruct t as [|c t]; [now elim Hne|]. simpl. now rewrite Hk.
Qed.

(** ** Request bodies *)

Lemma formObject_tags data : formObject data !! "tags" = Some (VStr (f_tags data)).
Proof. unfold formObject. now rewrite !lookup_insert_ne, lookup_insert_eq by done. Qed.

Lemma formObject_due_date data :
  formObject data !! "due_date" = Some (VStr (f_due_date data)).
Proof. unfold formObject. now rewrite !lookup_insert_ne, lookup_insert_eq by done. Qed.

Lemma formObject_notes data :
  formObject data !! "notes" = Some (VStr (f_notes data)).
Proof. unfold formObject. now rewrite !lookup_insert_ne, lookup_insert_eq by done. Qed.

(** What [updateTask] sends for a full form. *)
Lemma updateTask_payload_form data :
  updateTask_payload (formObject data)
  = <["notes" := orNull (f_notes data)]>
      (<["due_date" := orNull (f_due_date data)]>
         (<["tags" := VArr (tagsArray (f_tags data))]> (formObject data))).
Proof.
  unfold updateTask_payload. rewrite formObject_tags.
  rewrite lookup_insert_ne, formObject_due_date by done.
  assert (Hn : forall m : gmap string jsval,
             m !! "notes" = Some (VStr (f_notes data)) ->
             match m !! "notes" with
             | Some (VStr []) => <["notes" := VNull]> m
             | _ => m
             end = <["notes" := orNull (f_notes data)]> m).
  { intros m Hm. rewrite Hm. destruct (f_notes data); simpl; [reflexivity|].
    symmetry. now apply insert_id. }
  destruct (f_due_date data) as [|c s] eqn:Ed; simpl.
  - apply Hn. now rewrite !lookup_insert_ne, formObject_notes by done.
  - rewrite (insert_id _ "due_date" (VStr (c :: s))).
    + apply Hn. now rewrite !lookup_insert_ne, formObject_notes by done.
    + now rewrite lookup_insert_ne, formObject_due_date, Ed by done.
Qed.

(** C7, as amended: for every task whose tags are non-empty, trimmed and
    comma-free, the form shows the tags joined by comma and space in
    their order, and the body built from that form for create and for
    update carries a tags array equal to the original list. *)
Theorem tags_form_roundtrip (task : Task) :
  Forall cleanTag (tags task) ->
  f_tags (formOfTask task) = join (str ", ") (tags task)
  /\ createTask_payload (formOfTask task) !! "tags" = Some (VArr (tags task))
  /\ updateTask_payload (formObject (formOfTask task)) !! "tags"
     = Some (VArr (tags task)).
Proof.
  intros H. split; [reflexivity|]. split.
  - unfold createTask_payload. rewrite lookup_insert_eq.
    simpl f_tags. now rewrite tagsArray_join.
  - rewrite updateTask_payload_form.
    rewrite !lookup_insert_ne, lookup_insert_eq by done.
    simpl f_tags. now rewrite tagsArray_join.
Qed.

Lemma tags_form_roundtrip_witness :
  Forall cleanTag (tags twoTagTask)
  /\ f_tags (formOfTask twoTagTask) = str "a, b"
  /\ createTask_payload (formOfTask twoTagTask) !! "tags"
     = Some (VArr [str "a"; str "b"]).
Proof.
  assert (H : Forall cleanTag (tags twoTagTask)).
  { repeat constructor; try discriminate; try reflexivity;
      intros [E|[]]; discriminate. }
  split; [exact H|].
  destruct (tags_form_roundtrip twoTagTask H) as (Hj & Hc & _).
  split; [exact Hj | exact Hc].
Defined.

(** C7 as stated fails on an empty tag: the empty string is trimmed and
    has no comma, the form shows it as the empty string, and the body
    carries no tag at all. *)
Lemma tags_roundtrip_empty_tag :
  Forall (fun t => trim t = t /\ ~ In comma t) (tags emptyTagTask)
  /\ f_tags (formOfTask emptyTagTask) = []
  /\ createTask_payload (formOfTask emptyTagTask) !! "tags" = Some (VArr [])
  /\ updateTask_payload (formObject (formOfTask emptyTagTask)) !! "tags"
     = Some (VArr [])
  /\ VArr [] <> VArr (tags emptyTagTask).
Proof.
  split; [repeat constructor; intros []|].
  split; [reflexivity|]. split; [|split].
  - unfold createTask_payload. now rewrite lookup_insert_eq.
  - rewrite updateTask_payload_form.
    now rewrite !lookup_insert_ne, lookup_insert_eq by done.
  - discriminate.
Qed.

(** C8. A form whose due date and notes are the empty string yields,
    for create and for update, a body with [due_date = null] and
    [notes = null]. *)
Theorem empty_optional_fields_are_null (data : TaskFormData) :
  f_due_date data = [] -> f_notes data = [] ->
  createTask_payload data !! "due_date" = Some VNull
  /\ createTask_payload data !! "notes" = Some VNull
  /\ updateTask_payload (formObject data) !! "due_date" = Some VNull
  /\ updateTask_payload (formObject data) !! "notes" = Some VNull.
Proof.
  intros Hd Hn. rewrite updateTask_payload_form.
  unfold createTask_payload. rewrite Hd, Hn. simpl orNull.
  repeat split;
    now rewrite ?lookup_insert_eq, ?lookup_insert_ne, ?lookup_insert_eq by done.
Qed.

Lemma empty_optional_fields_are_null_witness :
  f_due_date blankForm = [] /\ f_notes blankForm = []
  /\ createTask_payload blankForm !! "due_date" = Some VNull
  /\ createTask_payload blankForm !! "notes" = Some VNull
  /\ updateTask_payload (formObject blankForm) !! "due_date" = Some VNull
  /\ updateTask_payload (formObject blankForm) !! "notes" = Some VNull.
Proof.
  split; [reflexivity|]. split; [reflexivity|].
  apply (empty_optional_fields_are_null blankForm); reflexivity.
Defined.

(** ** Toggle and delete *)

Lemma with_done_same t : with_done t (done t) = t.
Proof. now destruct t. Qed.

Lemma with_done_twice t b c : with_done (with_done t b) c = with_done t c.
Proof. reflexivity. Qed.

Lemma setDone_length x b l : length (setDone x b l) = length l.
Proof. apply length_map. Qed.

Lemma setDone_In x b l t' :
  In t' (setDone x b l) <->
  exists t, In t l /\ t' = (if id t =? id x then with_done t b else t).
Proof.
  unfold setDone. rewrite in_map_iff. split; intros (t & H1 & H2); eauto.
Qed.

(** Every task of the list keeps its place and all its fields but
    [done]; a task with another identifier is not changed at all. *)
Lemma setDone_frame x b l : Forall2 (onlyDoneOf (id x)) l (setDone x b l).
Proof.
  induction l as [|t l IH]; simpl; constructor; [|exact IH].
  unfold onlyDoneOf. destruct (Z.eqb_spec (id t) (id x)) as [E|E].
  - split; [reflexivity|]. intros Hne. now elim Hne.
  - split; [symmetry; apply with_done_same|reflexivity].
Qed.

Lemma setDone_undo x b l :
  (forall t, In t l -> id t = id x -> done t = done x) ->
  setDone x (done x) (setDone x b l) = l.
Proof.
  intros H. unfold setDone. rewrite map_map.
  rewrite <- (map_id l) at 2. apply map_ext_in. intros t Ht.
  destruct (Z.eqb_spec (id t) (id x)) as [E|E]; simpl.
  - change (id (with_done t b)) with (id t).
    destruct (Z.eqb_spec (id t) (id x)) as [_|Hne]; [|now elim Hne].
    rewrite with_done_twice, <- (H t Ht E). apply with_done_same.
  - destruct (Z.eqb_spec (id t) (id x)) as [E'|_]; [now elim E|reflexivity].
Qed.

Lemma NoDup_id_unique (l : list Task) (t x : Task) :
  List.NoDup (List.map id l) -> In t l -> In x l -> id t = id x -> t = x.
Proof.
  induction l as [|a l IH]; simpl; [intros _ []|].
  intros Hnd Ht Hx E. apply List.NoDup_cons_iff in Hnd as [Hna Hnd].
  destruct Ht as [->|Ht], Hx as [->|Hx]; try reflexivity.
  - elim Hna. rewrite E. now apply in_map.
  - elim Hna. rewrite <- E. now apply in_map.
  - now apply IH.
Qed.

Lemma updateTask_payload_done b : updateTask_payload (doneObject b) = doneObject b.
Proof.
  unfold updateTask_payload, doneObject.
  now rewrite !lookup_insert_ne, !lookup_empty by done.
Qed.

(** C5. Toggling a task [x] of the list (identifiers being unique): at
    the point where the handler waits for the network call the list
    already carries the new [done] value for [x] and the PATCH request
    is the last effect; if the call then fails, the list is again the one
    before the toggle and an alert is raised; if it succeeds, the
    optimistic list stays. *)
Theorem toggle_optimistic_then_rollback (st : AppState) (x : Task) :
  In x (tasks st) -> List.NoDup (List.map id (tasks st)) ->
  In (with_done x (negb (done x))) (tasks (handleToggleDone_begin x st))
  /\ (forall t, In t (tasks (handleToggleDone_begin x st)) ->
        id t = id x -> done t = negb (done x))
  /\ effects (handleToggleDone_begin x st)
     = effects st
       ++ [ERequest (updateTask_request (id x) (doneObject (negb (done x))))]
  /\ tasks (handleToggleDone x false st) = tasks st
  /\ effects (handleToggleDone x false st)
     = effects (handleToggleDone_begin x st) ++ [EAlert toggleFailedMsg]
  /\ handleToggleDone x true st = handleToggleDone_begin x st.
Proof.
  intros Hx Hnd. repeat split.
  - simpl. apply setDone_In. exists x. split; [exact Hx|].
    now rewrite Z.eqb_refl.
  - simpl. intros t Ht E. apply setDone_In in Ht as (t0 & Ht0 & ->).
    destruct (Z.eqb_spec (id t0) (id x)) as [_|Hne]; [reflexivity|].
    now elim Hne.
  - unfold handleToggleDone, handleToggleDone_resume. simpl.
    rewrite negb_involutive. apply setDone_undo.
    intros t Ht E. f_equal. now apply (NoDup_id_unique (tasks st)).
Qed.

Lemma toggle_optimistic_then_rollback_witness :
  In (sampleTask 2 1 false dueJan15) (tasks sampleState)
  /\ List.NoDup (List.map id (tasks sampleState))
  /\ In (sampleTask 2 1 true dueJan15)
        (tasks (handleToggleDone_begin (sampleTask 2 1 false dueJan15)
                  sampleState))
  /\ tasks (handleToggleDone (sampleTask 2 1 false dueJan15) false sampleState)
     = tasks sampleState.
Proof.
  assert (Hin : In (sampleTask 2 1 false dueJan15) (tasks sampleState)).
  { simpl. right. left. reflexivity. }
  assert (Hnd : List.NoDup (List.map id (tasks sampleState))).
  { simpl. repeat constructor; simpl; lia. }
  split; [exact Hin|]. split; [exact Hnd|].
  destruct (toggle_optimistic_then_rollback sampleState _ Hin Hnd)
    as (H1 & _ & _ & H4 & _).
  split; [exact H1 | exact H4].
Defined.

(** C6. [handleDelete] first asks for confirmation.  If the user
    declines, no request is issued and the list is unchanged.  If the
    user confirms, the DELETE request follows; when it succeeds the tasks
    with the identifier of [x] leave the list and nothing else changes;
    when it fails the list is unchanged and an alert is raised. *)
Theorem delete_protocol (st : AppState) (x : Task) :
  (forall ok,
      tasks (handleDelete x false ok st) = tasks st
      /\ effects (handleDelete x false ok st)
         = effects st ++ [EConfirm (confirmDeleteMsg x)])
  /\ tasks (handleDelete x true true st)
     = List.filter (fun t => negb (id t =? id x)) (tasks st)
  /\ (forall t, In t (tasks (handleDelete x true true st))
                <-> In t (tasks st) /\ id t <> id x)
  /\ effects (handleDelete x true true st)
     = effects st ++ [EConfirm (confirmDeleteMsg x);
                      ERequest (deleteTask_request (id x))]
  /\ tasks (handleDelete x true false st) = tasks st
  /\ effects (handleDelete x true false st)
     = effects st ++ [EConfirm (confirmDeleteMsg x);
                      ERequest (deleteTask_request (id x));
                      EAlert deleteFailedMsg].
Proof.
  repeat split; try reflexivity.
  - simpl in H. now apply filter_In in H.
  - simpl in H. apply filter_In in H as [_ H].
    apply negb_true_iff, Z.eqb_neq in H. exact H.
  - intros [Hin Hne]. simpl. apply filter_In. split; [exact Hin|].
    now apply negb_true_iff, Z.eqb_neq.
  - unfold handleDelete, perform. simpl. now rewrite <- app_assoc.
  - unfold handleDelete, perform. simpl. now rewrite <- !app_assoc.
Qed.

(** C10. The body of the toggle request has the [done] key and no
    other: [updateTask] adds nothing to [{ done }], so no tag splitting
    and no empty-string normalisation applies.  The optimistic update and
    the rollback keep every task in place, change no field of it but
    [done], and leave a task with another identifier as it is. *)
Theorem toggle_touches_only_done (st : AppState) (x : Task) :
  effects (handleToggleDone_begin x st)
  = effects st
    ++ [ERequest (mkRequest PATCH (Some (id x))
                    (Some (doneObject (negb (done x)))))]
  /\ dom (doneObject (negb (done x))) = {["done"]}
  /\ (forall k, k <> "done" -> doneObject (negb (done x)) !! k = None)
  /\ doneObject (negb (done x)) !! "done" = Some (VBool (negb (done x)))
  /\ Forall2 (onlyDoneOf (id x)) (tasks st)
       (tasks (handleToggleDone_begin x st))
  /\ Forall2 (onlyDoneOf (id x)) (tasks (handleToggleDone_begin x st))
       (tasks (handleToggleDone x false st))
  /\ tasks (handleToggleDone x true st) = tasks (handleToggleDone_begin x st).
Proof.
  split_and!.
  - unfold handleToggleDone_begin, updateTask_request, perform, setTasks.
    cbn [effects tasks]. now rewrite updateTask_payload_done.
  - unfold doneObject. rewrite dom_insert_L, dom_empty_L. set_solver.
  - intros k Hk. unfold doneObject.
    rewrite lookup_insert_ne by congruence. apply lookup_empty.
  - unfold doneObject. apply lookup_insert_eq.
  - apply setDone_frame.
  - apply setDone_frame.
  - reflexivity.
Qed.

(** * Further properties of the code *)

(** ** The engine: what every tab returns *)

Lemma applyFilter_keepBy clk f ts :
  applyFilter clk f ts = List.filter (keepBy clk f) ts.
Proof.
  destruct f; simpl; try reflexivity.
  symmetry. now apply filter_all_true.
Qed.

Lemma keepBy_open clk f t :
  f <> FilterAll -> keepBy clk f t = true -> done t = false.
Proof.
  destruct f; simpl; [intros H; now elim H| | |]; intros _;
    unfold keepOpen, keepToday, keepOverdue; destruct (done t);
    simpl; congruence.
Qed.

Lemma filter_length_le {A : Type} (p : A -> bool) (l : list A) :
  (length (List.filter p l) <= length l)%nat.
Proof.
  induction l as [|x l IH]; simpl; [lia|]. destruct (p x); simpl; lia.
Qed.

(** X1. The engine neither invents nor loses nor repeats tasks: its
    output is a rearrangement of the input tasks that pass the predicate
    of the tab, so it is never longer than the input, the All tab
    returns a rearrangement of the whole list, and every other tab
    returns open tasks only. *)
Theorem filteredTasks_rearranges_kept (clk : Clock) (f : TaskFilter)
        (ts : list Task) :
  Permutation (filteredTasks clk f ts) (List.filter (keepBy clk f) ts)
  /\ Permutation (filteredTasks clk FilterAll ts) ts
  /\ (length (filteredTasks clk f ts) <= length ts)%nat
  /\ (forall t, In t (filteredTasks clk f ts) <->
                In t ts /\ keepBy clk f t = true)
  /\ (forall t, f <> FilterAll -> In t (filteredTasks clk f ts) ->
                done t = false).
Proof.
  assert (Hp : Permutation (filteredTasks clk f ts)
                 (List.filter (keepBy clk f) ts)).
  { rewrite <- applyFilter_keepBy. apply filteredTasks_perm. }
  assert (Hin : forall t, In t (filteredTasks clk f ts) <->
                          In t ts /\ keepBy clk f t = true).
  { intros t. rewrite <- filter_In. split; apply Permutation_in;
      [exact Hp | symmetry; exact Hp]. }
  split_and!.
  - exact Hp.
  - apply filteredTasks_perm.
  - rewrite (Permutation_length Hp). apply filter_length_le.
  - exact Hin.
  - intros t Hf Ht. apply Hin in Ht as [_ Hk]. now apply (keepBy_open clk f).
Qed.

(** ** The engine: the date tabs never overlap *)

Lemma localDay_lower clk t : localDay clk t * msPerDay - localTZA clk <= t.
Proof.
  unfold localDay.
  pose proof (Z.mul_div_le (t + localTZA clk) msPerDay) as H.
  unfold msPerDay in *. lia.
Qed.

Lemma keepToday_not_overdue clk t :
  keepToday clk t = true -> keepOverdue clk t = false.
Proof.
  unfold keepToday, keepOverdue, todayStr, startOfToday, setHours0.
  destruct (negb (done t)); [|discriminate].
  destruct (truthy (due_date t)); [|discriminate]. simpl.
  destruct (dueTime t) as [d|]; simpl; [|reflexivity].
  intros H. apply Z.eqb_eq in H. rewrite <- H.
  apply Z.ltb_ge, localDay_lower.
Qed.

(** X2. In every time zone and at every instant the Today and the
    Overdue tab have no task in common, and so have the two badges of a
    card: the guard [!isOverdue] on the Today badge never hides it. *)
Theorem today_and_overdue_exclusive (clk : Clock) (ts : list Task) (t : Task) :
  (In t (filteredTasks clk FilterToday ts) ->
   ~ In t (filteredTasks clk FilterOverdue ts))
  /\ (isDueToday clk t = true -> isOverdue clk t = false)
  /\ isDueToday clk t && negb (isOverdue clk t) = isDueToday clk t.
Proof.
  assert (Hc : isDueToday clk t = true -> isOverdue clk t = false).
  { exact (keepToday_not_overdue clk t). }
  split_and!.
  - intros H1 H2.
    apply Array_sort_In in H1, H2. simpl in H1, H2.
    apply filter_In in H1 as [_ H1], H2 as [_ H2].
    apply keepToday_not_overdue in H1. congruence.
  - exact Hc.
  - destruct (isDueToday clk t); [|reflexivity]. now rewrite Hc.
Qed.

(** ** Stats: how the five numbers relate *)

Lemma count_disjoint_le (p q r : Task -> bool) ts :
  (forall t, p t = true -> q t = false) ->
  (forall t, p t = true -> r t = true) ->
  (forall t, q t = true -> r t = true) ->
  count p ts + count q ts <= count r ts.
Proof.
  intros Hpq Hpr Hqr. unfold count.
  induction ts as [|t ts IH]; simpl; [lia|].
  specialize (Hpq t). specialize (Hpr t). specialize (Hqr t).
  destruct (p t), (q t), (r t); simpl length;
    try (specialize (Hpq eq_refl)); try (specialize (Hpr eq_refl));
    try (specialize (Hqr eq_refl)); try discriminate; lia.
Qed.

Lemma count_bounds (p : Task -> bool) ts :
  0 <= count p ts <= Z.of_nat (length ts).
Proof.
  unfold count. pose proof (filter_length_le p ts). lia.
Qed.

(** X3. The numbers of the stats tiles are consistent for every list,
    clock and zone: none is negative, open and done add up to the total,
    and the tasks due today and the overdue ones are counted among the
    open ones without overlap, so due-today plus overdue never exceeds
    open. *)
Theorem stats_bounds (clk : Clock) (ts : list Task) :
  0 <= dueToday (stats clk ts)
  /\ 0 <= overdue (stats clk ts)
  /\ dueToday (stats clk ts) + overdue (stats clk ts) <= open (stats clk ts)
  /\ open (stats clk ts) <= total (stats clk ts)
  /\ 0 <= doneCount (stats clk ts)
  /\ open (stats clk ts) + doneCount (stats clk ts) = total (stats clk ts).
Proof.
  unfold stats. cbn [total open doneCount dueToday overdue].
  pose proof (count_bounds (statsDueToday clk) ts).
  pose proof (count_bounds (statsOverdue clk) ts).
  pose proof (count_bounds (fun t => negb (done t)) ts).
  assert (count (statsDueToday clk) ts + count (statsOverdue clk) ts
          <= count (fun t => negb (done t)) ts).
  { apply count_disjoint_le.
    - intros t. rewrite statsDueToday_keepToday, statsOverdue_keepOverdue.
      apply keepToday_not_overdue.
    - intros t. unfold statsDueToday. destruct (negb (done t)); [reflexivity|].
      discriminate.
    - intros t. unfold statsOverdue. destruct (negb (done t)); [reflexivity|].
      discriminate. }
  lia.
Qed.

(** ** The engine: the order of the output *)

Lemma StronglySorted_before {A : Type} (R : A -> A -> Prop) (l : list A) a b :
  StronglySorted R l -> before l a b -> R a b.
Proof.
  intros Hs (l1 & l2 & l3 & ->).
  induction l1 as [|x l1 IH]; simpl in Hs.
  - apply StronglySorted_inv in Hs as [_ Hall].
    rewrite List.Forall_forall in Hall. apply Hall.
    apply in_or_app. right. now left.
  - apply StronglySorted_inv in Hs as [Hs _]. now apply IH.
Qed.

Lemma Sorted_impl {A : Type} (R S : A -> A -> Prop) (l : list A) :
  (forall x y, R x y -> S x y) -> Sorted R l -> Sorted S l.
Proof.
  intros H. induction 1 as [|x l Hs IH Hd]; constructor; [exact IH|].
  destruct Hd; constructor. now apply H.
Qed.

Lemma inOrder_rankLe a b : inOrder compareTasks a b -> rankLe a b.
Proof.
  unfold inOrder, sortCompare, compareTasks, rankLe.
  destruct (done a), (done b); simpl; intros H; try lia;
    (split; [intros; reflexivity || assumption|intros Hd; try discriminate]);
    destruct (Z.eqb_spec (priority a) (priority b)); simpl in H; lia.
Qed.

Lemma rankLe_trans a b c : rankLe a b -> rankLe b c -> rankLe a c.
Proof.
  unfold rankLe. intros [H1 H2] [H3 H4].
  destruct (done a), (done b), (done c); split; intros; try discriminate;
    try reflexivity; try (now apply H1); try (now apply H3);
    try (specialize (H1 eq_refl)); try (specialize (H3 eq_refl));
    try discriminate; specialize (H2 eq_refl); specialize (H4 eq_refl); lia.
Qed.

(** X4. In the output of every tab, whatever the due dates look like,
    no done task stands before an open one, and of two tasks with the
    same completion status the earlier one has the lower or the same
    priority number. *)
Theorem open_first_then_priority (clk : Clock) (f : TaskFilter)
        (ts : list Task) (a b : Task) :
  before (filteredTasks clk f ts) a b ->
  (done a = true -> done b = true)
  /\ (done a = done b -> priority a <= priority b).
Proof.
  intros Hb. change (rankLe a b).
  apply (StronglySorted_before rankLe (filteredTasks clk f ts)); [|exact Hb].
  apply Sorted_StronglySorted.
  - intros x y z. apply rankLe_trans.
  - apply (Sorted_impl (inOrder compareTasks)); [exact inOrder_rankLe|].
    apply Array_sort_sorted, compareTasks_signConsistent.
Qed.

Lemma open_first_then_priority_witness :
  before (filteredTasks noonEast FilterAll mixedTasks)
         (sampleTask 5 1 false None) (sampleTask 3 2 true dueJan14)
  /\ (done (sampleTask 5 1 false None) = true ->
      done (sampleTask 3 2 true dueJan14) = true).
Proof.
  assert (Hb : before (filteredTasks noonEast FilterAll mixedTasks)
                 (sampleTask 5 1 false None) (sampleTask 3 2 true dueJan14)).
  { exists [], [sampleTask 4 2 false dueJan14; sampleTask 2 2 false dueJan16;
               sampleTask 6 2 false None; sampleTask 1 2 false None], [].
    vm_compute. reflexivity. }
  split; [exact Hb|].
  apply (open_first_then_priority noonEast FilterAll mixedTasks _ _ Hb).
Defined.

Lemma inOrder_dueLe a b :
  validDue a -> validDue b -> done a = done b -> priority a = priority b ->
  inOrder compareTasks a b -> dueLe a b.
Proof.
  unfold validDue, inOrder, sortCompare, compareTasks, dueLe.
  rewrite !dueTime_dueDay. intros Va Vb Hd Hp.
  rewrite Hd, Hp, Bool.eqb_reflx, Z.eqb_refl. simpl.
  pose proof (dueDay_truthy a) as Ta. pose proof (dueDay_truthy b) as Tb.
  destruct (dueDay a) as [x|], (dueDay b) as [y|];
    try rewrite (Ta _ eq_refl); try rewrite (Tb _ eq_refl); simpl;
    try (destruct (truthy (due_date a)); [now elim Va|]);
    try (destruct (truthy (due_date b)); [now elim Vb|]); simpl;
    unfold msPerDay; lia.
Qed.

Lemma before_In {A : Type} (l : list A) a b : before l a b -> In a l /\ In b l.
Proof.
  intros (l1 & l2 & l3 & ->). split; apply in_or_app; right.
  - now left.
  - right. apply in_or_app. right. now left.
Qed.

Lemma filteredTasks_validDue clk f ts t :
  Forall validDue ts -> In t (filteredTasks clk f ts) -> validDue t.
Proof.
  intros Hv Ht. rewrite List.Forall_forall in Hv. apply Hv.
  apply Array_sort_In in Ht. now apply applyFilter_In in Ht.
Qed.

(** X5. When the due dates of the list are calendar dates, two tasks
    of the same completion status and priority leave the engine in this
    order: a dated task before an undated one, dated tasks by ascending
    day, undated tasks by descending identifier. *)
Theorem order_within_priority (clk : Clock) (f : TaskFilter)
        (ts : list Task) (a b : Task) :
  Forall validDue ts ->
  before (filteredTasks clk f ts) a b ->
  done a = done b -> priority a = priority b ->
  dueLe a b.
Proof.
  intros Hv Hb Hd Hp.
  destruct (before_In _ _ _ Hb) as [Ha Hb'].
  apply inOrder_dueLe; try assumption.
  - now apply (filteredTasks_validDue clk f ts).
  - now apply (filteredTasks_validDue clk f ts).
  - apply (StronglySorted_before _ (filteredTasks clk f ts)); [|exact Hb].
    now apply filteredTasks_strongly_sorted.
Qed.

Lemma mixedTasks_validDue : Forall validDue mixedTasks.
Proof.
  unfold mixedTasks.
  repeat (apply List.Forall_cons;
          [unfold validDue; vm_compute; congruence|]).
  apply List.Forall_nil.
Qed.

Lemma order_within_priority_witness :
  Forall validDue mixedTasks
  /\ before (filteredTasks noonEast FilterOpen mixedTasks)
            (sampleTask 2 2 false dueJan16) (sampleTask 6 2 false None)
  /\ dueLe (sampleTask 2 2 false dueJan16) (sampleTask 6 2 false None).
Proof.
  assert (Hb : before (filteredTasks noonEast FilterOpen mixedTasks)
                 (sampleTask 2 2 false dueJan16) (sampleTask 6 2 false None)).
  { exists [sampleTask 5 1 false None; sampleTask 4 2 false dueJan14], [],
           [sampleTask 1 2 false None].
    vm_compute. reflexivity. }
  split; [exact mixedTasks_validDue|]. split; [exact Hb|].
  apply (order_within_priority noonEast FilterOpen mixedTasks _ _
           mixedTasks_validDue Hb); reflexivity.
Defined.

(** ** Sorting and filtering commute *)

Section SortFilter.

Context {A : Type}.
Variable comparefn : A -> A -> option Z.
Variable P : A -> Prop.
Hypothesis Hsign : signConsistent comparefn.
Hypothesis Htrans :
  forall x y z, P x -> P y -> P z ->
                inOrder comparefn x y -> inOrder comparefn y z ->
                inOrder comparefn x z.

Lemma insertSorted_filter (p : A -> bool) x l :
  P x -> Forall P l -> StronglySorted (inOrder comparefn) l ->
  List.filter p (insertSorted comparefn x l)
  = if p x then insertSorted comparefn x (List.filter p l)
    else List.filter p l.
Proof.
  intros Px Pl Hs. induction Hs as [|y l Hs IH Hall].
  - simpl. now destruct (p x).
  - apply List.Forall_cons_iff in Pl as [Py Pl]. specialize (IH Pl).
    simpl insertSorted.
    destruct (sortCompare comparefn x y <=? 0) eqn:E.
    + apply Z.leb_le in E.
      change (List.filter p (x :: y :: l))
        with (if p x then x :: List.filter p (y :: l)
              else List.filter p (y :: l)).
      destruct (p x); [|reflexivity].
      symmetry. apply insertSorted_head.
      destruct (List.filter p (y :: l)) as [|z r] eqn:Ef; constructor.
      assert (Hz : In z (y :: l)).
      { apply (proj1 (filter_In p z (y :: l))). rewrite Ef. now left. }
      destruct Hz as [<-|Hz]; [exact E|].
      rewrite List.Forall_forall in Hall, Pl.
      apply (Htrans x y z); auto.
    + change (List.filter p (y :: insertSorted comparefn x l))
        with (if p y then y :: List.filter p (insertSorted comparefn x l)
              else List.filter p (insertSorted comparefn x l)).
      rewrite IH. simpl List.filter.
      destruct (p y), (p x); try reflexivity.
      simpl insertSorted. now rewrite E.
Qed.

Lemma Array_sort_filter (p : A -> bool) l :
  Forall P l ->
  List.filter p (Array_sort comparefn l)
  = Array_sort comparefn (List.filter p l).
Proof.
  induction 1 as [|x l Px Pl IH]; [reflexivity|].
  simpl Array_sort. rewrite insertSorted_filter.
  - simpl List.filter. rewrite IH. now destruct (p x).
  - exact Px.
  - rewrite List.Forall_forall in *. intros y Hy. apply Pl.
    now apply Array_sort_In in Hy.
  - apply Sorted_StronglySorted_within with (P := P).
    + exact Htrans.
    + rewrite List.Forall_forall in *. intros y Hy. apply Pl.
      now apply Array_sort_In in Hy.
    + now apply Array_sort_sorted.
Qed.

End SortFilter.

Lemma filter_filter_comm {A : Type} (p q : A -> bool) (l : list A) :
  List.filter p (List.filter q l) = List.filter q (List.filter p l).
Proof.
  induction l as [|x l IH]; [reflexivity|]. simpl.
  destruct (p x) eqn:Ep, (q x) eqn:Eq; simpl; rewrite ?Ep, ?Eq, IH;
    reflexivity.
Qed.

Lemma Forall_filter_keep {A : Type} (Q : A -> Prop) (p : A -> bool) l :
  Forall Q l -> Forall Q (List.filter p l).
Proof.
  rewrite !List.Forall_forall. intros H x Hx. apply H.
  now apply filter_In in Hx.
Qed.

(** X6. When the due dates of the list are calendar dates, every tab
    shows the tasks in the order the All tab shows them: its output is
    the output of the All tab with the tasks the tab does not keep left
    out. *)
Theorem tabs_share_one_order (clk : Clock) (f : TaskFilter) (ts : list Task) :
  Forall validDue ts ->
  filteredTasks clk f ts
  = List.filter (keepBy clk f) (filteredTasks clk FilterAll ts).
Proof.
  intros Hv. unfold filteredTasks. rewrite applyFilter_keepBy. simpl.
  symmetry. apply Array_sort_filter with (P := validDue).
  - exact compareTasks_signConsistent.
  - exact compareTasks_transitive.
  - exact Hv.
Qed.

Lemma tabs_share_one_order_witness :
  Forall validDue mixedTasks
  /\ filteredTasks noonEast FilterOverdue mixedTasks
     = List.filter (keepBy noonEast FilterOverdue)
         (filteredTasks noonEast FilterAll mixedTasks).
Proof.
  split; [exact mixedTasks_validDue|].
  apply (tabs_share_one_order noonEast FilterOverdue mixedTasks).
  exact mixedTasks_validDue.
Defined.

(** ** The date tabs, zone by zone *)

(** On a [Clock] the engine of the zone with that one offset is the
    engine of the clock. *)
Lemma filteredTasksIn_fixedZone clk f ts :
  filteredTasksIn (fixedZone (localTZA clk)) (nowMs clk) f ts
  = filteredTasks clk f ts.
Proof. now destruct f. Qed.

Lemma keepTodayIn_iff z now t :
  keepTodayIn z now t = true <->
  done t = false
  /\ exists d, dueDay t = Some d
               /\ localDayIn z (d * msPerDay) = localDayIn z now.
Proof.
  unfold keepTodayIn. rewrite dueTime_dueDay.
  pose proof (dueDay_truthy t) as Ht.
  destruct (done t); simpl; [split; [discriminate|intros [? _]; discriminate]|].
  destruct (dueDay t) as [d|] eqn:Ed.
  - rewrite (Ht d eq_refl). simpl. rewrite Z.eqb_eq. split.
    + intros H. split; [reflexivity|]. now exists d.
    + intros [_ (d' & E & H)]. now inversion E; subst.
  - rewrite andb_false_r.
    split; [discriminate|intros [_ (d' & E & _)]; discriminate].
Qed.

Lemma keepOverdueIn_iff z now t :
  keepOverdueIn z now t = true <->
  done t = false
  /\ exists d, dueDay t = Some d /\ d * msPerDay < setHours0In z now.
Proof.
  unfold keepOverdueIn. rewrite dueTime_dueDay.
  pose proof (dueDay_truthy t) as Ht.
  destruct (done t); simpl; [split; [discriminate|intros [? _]; discriminate]|].
  destruct (dueDay t) as [d|] eqn:Ed.
  - rewrite (Ht d eq_refl). simpl. rewrite Z.ltb_lt. split.
    + intros H. split; [reflexivity|]. now exists d.
    + intros [_ (d' & E & H)]. now inversion E; subst.
  - rewrite andb_false_r.
    split; [discriminate|intros [_ (d' & E & _)]; discriminate].
Qed.

Lemma localDayIn_east z d :
  0 <= utcOffset z (d * msPerDay) < msPerDay ->
  localDayIn z (d * msPerDay) = d.
Proof.
  intros H. unfold localDayIn.
  rewrite Z.add_comm, Z.div_add by (unfold msPerDay; lia).
  rewrite Z.div_small by exact H. lia.
Qed.

Lemma localDayIn_west z d :
  - msPerDay <= utcOffset z (d * msPerDay) < 0 ->
  localDayIn z (d * msPerDay) = d - 1.
Proof.
  intros H. unfold localDayIn.
  replace (d * msPerDay + utcOffset z (d * msPerDay))
    with ((utcOffset z (d * msPerDay) + msPerDay) + (d - 1) * msPerDay) by lia.
  rewrite Z.div_add by (unfold msPerDay; lia).
  rewrite Z.div_small by lia. lia.
Qed.

(** X7. In a zone that is at or east of UTC at every instant (every
    offset it ever has is below 24 hours and not negative, daylight
    saving included) the date tabs work by calendar day for every task
    whose due date, when present, is a calendar date: Today returns it
    exactly when it is open and its due date names the current local
    day, Overdue exactly when it is open and its due date names an
    earlier day. *)
Theorem date_tabs_east_of_utc (z : TimeZone) (now : Z) (ts : list Task)
        (t : Task) :
  (forall u, 0 <= utcOffset z u < msPerDay) ->
  (forall l, 0 <= localOffset z l < msPerDay) ->
  validDue t ->
  (In t (filteredTasksIn z now FilterToday ts) <->
   In t ts /\ done t = false /\ dueDay t = Some (localDayIn z now))
  /\ (In t (filteredTasksIn z now FilterOverdue ts) <->
      In t ts /\ done t = false
      /\ exists d, dueDay t = Some d /\ d < localDayIn z now).
Proof.
  intros Hu Hl _. unfold filteredTasksIn. rewrite !Array_sort_In. simpl.
  rewrite !filter_In, keepTodayIn_iff, keepOverdueIn_iff. split.
  - split; intros (Hin & Hd & H); (split; [exact Hin|split; [exact Hd|]]).
    + destruct H as (d & E & H).
      rewrite (localDayIn_east z d (Hu _)) in H. now subst.
    + exists (localDayIn z now). split; [exact H|].
      apply localDayIn_east, Hu.
  - unfold setHours0In.
    pose proof (Hl (localDayIn z now * msPerDay)) as Ho.
    split; intros (Hin & Hd & d & E & H);
      (split; [exact Hin|split; [exact Hd|exists d; split; [exact E|]]]);
      unfold msPerDay in *; lia.
Qed.

Lemma zoneCentralEurope_east :
  (forall u, 0 <= utcOffset zoneCentralEurope u < msPerDay)
  /\ (forall l, 0 <= localOffset zoneCentralEurope l < msPerDay).
Proof.
  split; intros x; simpl; destruct (x <? _); unfold msPerDay; lia.
Qed.

Lemma date_tabs_east_of_utc_witness :
  (forall u, 0 <= utcOffset zoneCentralEurope u < msPerDay)
  /\ (forall l, 0 <= localOffset zoneCentralEurope l < msPerDay)
  /\ validDue dueMar31Task
  /\ validDue dueMar30Task
  /\ In dueMar31Task
        (filteredTasksIn zoneCentralEurope noonCentralEurope FilterToday
           [dueMar30Task; dueMar31Task])
  /\ In dueMar30Task
        (filteredTasksIn zoneCentralEurope noonCentralEurope FilterOverdue
           [dueMar30Task; dueMar31Task]).
Proof.
  destruct zoneCentralEurope_east as [Hu Hl].
  assert (V31 : validDue dueMar31Task)
    by (unfold validDue; vm_compute; congruence).
  assert (V30 : validDue dueMar30Task)
    by (unfold validDue; vm_compute; congruence).
  split; [exact Hu|]. split; [exact Hl|].
  split; [exact V31|]. split; [exact V30|].
  destruct (date_tabs_east_of_utc zoneCentralEurope noonCentralEurope
              [dueMar30Task; dueMar31Task] dueMar31Task Hu Hl V31)
    as [[_ Ht] _].
  destruct (date_tabs_east_of_utc zoneCentralEurope noonCentralEurope
              [dueMar30Task; dueMar31Task] dueMar30Task Hu Hl V30)
    as [_ [_ Ho]].
  split.
  - apply Ht. split; [right; left; reflexivity|].
    split; [reflexivity|vm_compute; reflexivity].
  - apply Ho. split; [left; reflexivity|]. split; [reflexivity|].
    exists 19812. split; vm_compute; reflexivity.
Defined.

(** X8. In a zone that is west of UTC at every instant (every offset
    it ever has is negative and not below minus 24 hours, daylight
    saving included) both date tabs are one day late for every task
    whose due date, when present, is a calendar date: Today returns it
    exactly when it is open and due on the day after the current local
    day, Overdue exactly when it is open and due on the current local
    day or an earlier one. *)
Theorem date_tabs_west_of_utc (z : TimeZone) (now : Z) (ts : list Task)
        (t : Task) :
  (forall u, - msPerDay <= utcOffset z u < 0) ->
  (forall l, - msPerDay <= localOffset z l < 0) ->
  validDue t ->
  (In t (filteredTasksIn z now FilterToday ts) <->
   In t ts /\ done t = false /\ dueDay t = Some (localDayIn z now + 1))
  /\ (In t (filteredTasksIn z now FilterOverdue ts) <->
      In t ts /\ done t = false
      /\ exists d, dueDay t = Some d /\ d <= localDayIn z now).
Proof.
  intros Hu Hl _. unfold filteredTasksIn. rewrite !Array_sort_In. simpl.
  rewrite !filter_In, keepTodayIn_iff, keepOverdueIn_iff. split.
  - split; intros (Hin & Hd & H); (split; [exact Hin|split; [exact Hd|]]).
    + destruct H as (d & E & H).
      rewrite (localDayIn_west z d (Hu _)) in H.
      rewrite E. f_equal. lia.
    + exists (localDayIn z now + 1). split; [exact H|].
      rewrite (localDayIn_west z _ (Hu _)). lia.
  - unfold setHours0In.
    pose proof (Hl (localDayIn z now * msPerDay)) as Ho.
    split; intros (Hin & Hd & d & E & H);
      (split; [exact Hin|split; [exact Hd|exists d; split; [exact E|]]]);
      unfold msPerDay in *; lia.
Qed.

Lemma zoneEastern_west :
  (forall u, - msPerDay <= utcOffset zoneEastern u < 0)
  /\ (forall l, - msPerDay <= localOffset zoneEastern l < 0).
Proof.
  split; intros x; simpl; destruct (x <? _); unfold msPerDay; lia.
Qed.

Lemma date_tabs_west_of_utc_witness :
  (forall u, - msPerDay <= utcOffset zoneEastern u < 0)
  /\ (forall l, - msPerDay <= localOffset zoneEastern l < 0)
  /\ validDue dueMar11Task
  /\ validDue dueMar10Task
  /\ In dueMar11Task
        (filteredTasksIn zoneEastern noonEastern FilterToday
           [dueMar10Task; dueMar11Task])
  /\ In dueMar10Task
        (filteredTasksIn zoneEastern noonEastern FilterOverdue
           [dueMar10Task; dueMar11Task]).
Proof.
  destruct zoneEastern_west as [Hu Hl].
  assert (V11 : validDue dueMar11Task)
    by (unfold validDue; vm_compute; congruence).
  assert (V10 : validDue dueMar10Task)
    by (unfold validDue; vm_compute; congruence).
  split; [exact Hu|]. split; [exact Hl|].
  split; [exact V11|]. split; [exact V10|].
  destruct (date_tabs_west_of_utc zoneEastern noonEastern
              [dueMar10Task; dueMar11Task] dueMar11Task Hu Hl V11)
    as [[_ Ht] _].
  destruct (date_tabs_west_of_utc zoneEastern noonEastern
              [dueMar10Task; dueMar11Task] dueMar10Task Hu Hl V10)
    as [_ [_ Ho]].
  split.
  - apply Ht. split; [right; left; reflexivity|].
    split; [reflexivity|vm_compute; reflexivity].
  - apply Ho. split; [left; reflexivity|]. split; [reflexivity|].
    exists 19792. split; vm_compute; congruence.
Defined.

(** ** Tags: what [tagsArray] returns *)

Lemma trimStart_idem s : trimStart (trimStart s) = trimStart s.
Proof.
  induction s as [|c s IH]; [reflexivity|]. simpl.
  destruct (isWhiteSpace c) eqn:E; [exact IH|]. simpl. now rewrite E.
Qed.

Lemma trimStart_snoc w c :
  isWhiteSpace c = false -> trimStart (w ++ [c]) = trimStart w ++ [c].
Proof.
  intros Hc. induction w as [|x w IH]; simpl.
  - now rewrite Hc.
  - destruct (isWhiteSpace x); [exact IH|reflexivity].
Qed.

Lemma trimEnd_keeps_start u : trimStart u = u -> trimStart (trimEnd u) = trimEnd u.
Proof.
  destruct u as [|c u]; [reflexivity|]. simpl.
  destruct (isWhiteSpace c) eqn:E.
  - intros H. exfalso.
    assert (Hl : (length (trimStart u) <= length u)%nat).
    { clear. induction u as [|x u IH]; simpl; [lia|].
      destruct (isWhiteSpace x); simpl; lia. }
    rewrite H in Hl. simpl in Hl. lia.
  - intros _. unfold trimEnd. simpl rev.
    rewrite trimStart_snoc by exact E.
    rewrite rev_app_distr. simpl. now rewrite E.
Qed.

Lemma trimEnd_idem s : trimEnd (trimEnd s) = trimEnd s.
Proof. unfold trimEnd. now rewrite rev_involutive, trimStart_idem. Qed.

Lemma trim_idem s : trim (trim s) = trim s.
Proof.
  unfold trim.
  rewrite (trimEnd_keeps_start (trimStart s)) by apply trimStart_idem.
  apply trimEnd_idem.
Qed.

Lemma trimStart_In c s : In c (trimStart s) -> In c s.
Proof.
  induction s as [|x s IH]; simpl; [tauto|].
  destruct (isWhiteSpace x); [intros H; right; now apply IH|tauto].
Qed.

Lemma trim_In c s : In c (trim s) -> In c s.
Proof.
  unfold trim, trimEnd. rewrite <- in_rev. intros H.
  apply trimStart_In in H. rewrite <- in_rev in H. now apply trimStart_In.
Qed.

Lemma trimStart_keeps c s :
  isWhiteSpace c = false -> In c s -> In c (trimStart s).
Proof.
  intros Hc. induction s as [|x s IH]; simpl; [tauto|].
  destruct (isWhiteSpace x) eqn:E; [|intros H; exact H].
  intros [->|H]; [congruence|now apply IH].
Qed.

Lemma trim_keeps c s : isWhiteSpace c = false -> In c s -> In c (trim s).
Proof.
  intros Hc H. unfold trim, trimEnd. rewrite <- in_rev.
  apply trimStart_keeps; [exact Hc|]. rewrite <- in_rev.
  now apply trimStart_keeps.
Qed.

Lemma trimStart_blank s :
  Forall (fun c => isWhiteSpace c = true) s -> trimStart s = [].
Proof. induction 1 as [|c s Hc _ IH]; simpl; [reflexivity|]. now rewrite Hc. Qed.

Lemma split_not_nil sep s : split sep s <> [].
Proof.
  destruct s as [|c s]; simpl; [discriminate|].
  destruct (N.eqb c sep); [discriminate|].
  destruct (split sep s); discriminate.
Qed.

Lemma split_segments_sep_free sep s :
  Forall (fun seg => ~ In sep seg) (split sep s).
Proof.
  induction s as [|c s IH]; simpl.
  - constructor; [tauto|constructor].
  - destruct (N.eqb_spec c sep) as [E|E].
    + constructor; [tauto|exact IH].
    + destruct (split sep s) as [|seg segs] eqn:Es.
      * constructor; [|constructor]. intros [H|[]]. congruence.
      * inversion IH as [|? ? Hseg Hsegs]; subst.
        constructor; [|exact Hsegs]. intros [H|H]; [congruence|tauto].
Qed.

Lemma split_segments_In sep s seg c :
  In seg (split sep s) -> In c seg -> In c s /\ c <> sep.
Proof.
  intros Hseg Hc. split.
  - revert seg Hseg Hc. induction s as [|x s IH]; simpl; intros seg Hseg Hc.
    + destruct Hseg as [<-|[]]. destruct Hc.
    + destruct (N.eqb x sep).
      * destruct Hseg as [<-|Hseg]; [destruct Hc|]. right. eauto.
      * destruct (split sep s) as [|seg0 segs] eqn:Es.
        -- destruct Hseg as [<-|[]]. destruct Hc as [->|[]]. now left.
        -- destruct Hseg as [<-|Hseg].
           ++ destruct Hc as [->|Hc]; [now left|].
              right. apply (IH seg0); [now left|exact Hc].
           ++ right. apply (IH seg); [now right|exact Hc].
  - intros ->. pose proof (split_segments_sep_free sep s) as H.
    rewrite List.Forall_forall in H. now apply (H seg).
Qed.

Lemma split_covers sep s c :
  In c s -> c <> sep -> exists seg, In seg (split sep s) /\ In c seg.
Proof.
  intros Hc Hne. induction s as [|x s IH]; [destruct Hc|]. simpl.
  destruct (N.eqb_spec x sep) as [E|E].
  - destruct Hc as [->|Hc]; [congruence|].
    destruct (IH Hc) as (seg & H1 & H2). exists seg. split; [now right|exact H2].
  - pose proof (split_not_nil sep s) as Hn.
    destruct (split sep s) as [|seg0 segs] eqn:Es; [congruence|].
    destruct Hc as [->|Hc].
    + exists (c :: seg0). split; now left.
    + destruct (IH Hc) as (seg & [<-|H1] & H2).
      * exists (x :: seg0). split; [now left|now right].
      * exists seg. split; [now right|exact H2].
Qed.

Lemma tagsArray_In t s :
  In t (tagsArray s) <->
  t <> [] /\ exists seg, In seg (split comma s) /\ t = trim seg.
Proof.
  unfold tagsArray. rewrite filter_In, in_map_iff. split.
  - intros [(seg & <- & Hseg) Hl]. split; [|now exists seg].
    intros E. rewrite E in Hl. discriminate.
  - intros [Hne (seg & Hseg & ->)]. split; [now exists seg|].
    destruct (trim seg); [now elim Hne|reflexivity].
Qed.

Lemma tagsArray_Forall_clean (s : jsstring) : Forall cleanTag (tagsArray s).
Proof.
  rewrite List.Forall_forall. intros t Ht.
  apply tagsArray_In in Ht as [Hne (seg & Hseg & ->)].
  split; [exact Hne|]. split; [apply trim_idem|].
  intros Hc. apply trim_In in Hc.
  now destruct (split_segments_In comma s seg comma Hseg Hc).
Qed.

(** X9. Whatever is typed into the tags field, every tag sent to the
    API is non-empty, has no leading or trailing white space and no
    comma. *)
Theorem tagsArray_clean (s : jsstring) :
  Forall (fun t => t <> [] /\ trim t = t /\ ~ In comma t) (tagsArray s).
Proof.
  apply List.Forall_forall. intros t Ht.
  apply tagsArray_In in Ht as [Hne (seg & Hseg & ->)].
  split_and!.
  - exact Hne.
  - apply trim_idem.
  - intros Hc. apply trim_In in Hc.
    now destruct (split_segments_In comma s seg comma Hseg Hc).
Qed.

(** X10. The tags a form yields survive another pass through the
    editor: joined as the form shows them and split again, they are the
    same list. *)
Theorem tagsArray_resubmit (s : jsstring) :
  tagsArray (join (str ", ") (tagsArray s)) = tagsArray s.
Proof. apply tagsArray_join, tagsArray_Forall_clean. Qed.

(** X11. The tags field yields no tag at all exactly when it holds
    nothing but white space and commas (the empty field included). *)
Theorem tagsArray_empty_iff (s : jsstring) :
  tagsArray s = [] <->
  Forall (fun c => isWhiteSpace c = true \/ c = comma) s.
Proof.
  split.
  - intros He. rewrite List.Forall_forall. intros c Hc.
    destruct (isWhiteSpace c) eqn:Ew; [now left|]. right.
    destruct (N.eq_dec c comma) as [E|E]; [exact E|]. exfalso.
    destruct (split_covers comma s c Hc E) as (seg & Hseg & Hcs).
    assert (Hin : In (trim seg) (tagsArray s)).
    { apply tagsArray_In. split; [|now exists seg].
      intros Hn. apply (trim_keeps c seg Ew) in Hcs.
      rewrite Hn in Hcs. destruct Hcs. }
    rewrite He in Hin. destruct Hin.
  - intros Hall. destruct (tagsArray s) as [|t l] eqn:Et; [reflexivity|].
    exfalso.
    assert (Hin : In t (tagsArray s)) by (rewrite Et; now left).
    apply tagsArray_In in Hin as [Hne (seg & Hseg & ->)]. apply Hne.
    unfold trim. rewrite trimStart_blank; [reflexivity|].
    rewrite List.Forall_forall in *. intros c Hc.
    destruct (split_segments_In comma s seg c Hseg Hc) as [Hcs Hnc].
    destruct (Hall c Hcs) as [H|H]; [exact H|congruence].
Qed.

(** ** Request bodies: keys and normal form *)

Lemma formObject_dom data : dom (formObject data) = formKeys.
Proof.
  unfold formObject, formKeys. rewrite !dom_insert_L, dom_empty_L. set_solver.
Qed.

Lemma createTask_payload_dom data : dom (createTask_payload data) = formKeys.
Proof.
  unfold createTask_payload. rewrite !dom_insert_L, formObject_dom.
  unfold formKeys. set_solver.
Qed.

Lemma updateTask_payload_create data :
  updateTask_payload (formObject data) = createTask_payload data.
Proof.
  rewrite updateTask_payload_form. unfold createTask_payload.
  rewrite (insert_insert_ne _ "due_date" "tags") by done.
  rewrite (insert_insert_ne _ "notes" "tags") by done.
  reflexivity.
Qed.

(** X12. For a full form [updateTask] builds the very body that
    [createTask] builds, and that body has the five keys of the form and
    no other: no identifier, completion flag or time stamp is sent. *)
Theorem create_and_update_send_the_same_body (data : TaskFormData) :
  updateTask_payload (formObject data) = createTask_payload data
  /\ dom (createTask_payload data) = formKeys
  /\ createTask_payload data !! "title" = Some (VStr (f_title data))
  /\ createTask_payload data !! "priority" = Some (VNum (f_priority data))
  /\ createTask_payload data !! "tags" = Some (VArr (tagsArray (f_tags data)))
  /\ (forall k, k ∉ formKeys -> createTask_payload data !! k = None).
Proof.
  split_and!.
  - apply updateTask_payload_create.
  - apply createTask_payload_dom.
  - unfold createTask_payload, formObject.
    now rewrite !lookup_insert_ne, lookup_insert_eq by done.
  - unfold createTask_payload, formObject.
    now rewrite !lookup_insert_ne, lookup_insert_eq by done.
  - unfold createTask_payload. apply lookup_insert_eq.
  - intros k Hk. apply not_elem_of_dom. now rewrite createTask_payload_dom.
Qed.

Lemma orNull_orEmpty o : orNull (orEmpty o) = optValue o.
Proof. now destruct o as [[|c s]|]. Qed.

(** X13. Opening a task in the editor and saving it unchanged sends
    the title and priority of the task, its due date and notes as they
    are when present and as [null] when absent or empty, for create and
    update alike. *)
Theorem unchanged_edit_sends_task_fields (t : Task) :
  let body := updateTask_payload (formObject (formOfTask t)) in
  body = createTask_payload (formOfTask t)
  /\ body !! "title" = Some (VStr (title t))
  /\ body !! "priority" = Some (VNum (priority t))
  /\ body !! "due_date" = Some (optValue (due_date t))
  /\ body !! "notes" = Some (optValue (notes t)).
Proof.
  cbv zeta. rewrite updateTask_payload_create.
  split; [reflexivity|].
  unfold createTask_payload, formObject. simpl f_due_date. simpl f_notes.
  rewrite !orNull_orEmpty. split_and!;
    now rewrite ?lookup_insert_eq, ?lookup_insert_ne, ?lookup_insert_eq by done.
Qed.
Lemma updateTask_payload_lookup (data : gmap string jsval) (k : string) :
  updateTask_payload data !! k = normalised k <$> data !! k.
Proof.
  unfold updateTask_payload.
  set (p1 := match data !! "tags" with
             | Some (VStr s) => <["tags" := VArr (tagsArray s)]> data
             | _ => data
             end).
  set (p2 := match p1 !! "due_date" with
             | Some (VStr []) => <["due_date" := VNull]> p1
             | _ => p1
             end).
  assert (H1 : forall j, p1 !! j
                 = (fun v => match v with
                             | VStr s => if bool_decide (j = "tags")
                                         then VArr (tagsArray s) else v
                             | _ => v
                             end) <$> data !! j).
  { intros j. unfold p1.
    destruct (data !! "tags") as [[| | |s|]|] eqn:Et;
      try (destruct (data !! j) as [[]|] eqn:Ej; simpl; try reflexivity;
           case_bool_decide; [congruence|reflexivity]).
    destruct (decide (j = "tags")) as [->|Hj].
    - rewrite lookup_insert_eq, Et. simpl; repeat case_bool_decide; congruence.
    - rewrite lookup_insert_ne by congruence.
      destruct (data !! j) as [[]|]; simpl; try reflexivity.
      repeat case_bool_decide; congruence. }
  assert (H2 : forall j, p2 !! j
                 = (fun v => match v with
                             | VStr [] => if bool_decide (j = "due_date")
                                          then VNull else v
                             | _ => v
                             end) <$> p1 !! j).
  { intros j. unfold p2.
    destruct (p1 !! "due_date") as [[| | |[|c s]|]|] eqn:Et;
      try (destruct (p1 !! j) as [[| | |[|c' s']|]|] eqn:Ej; simpl;
           try reflexivity; case_bool_decide; [congruence|reflexivity]).
    destruct (decide (j = "due_date")) as [->|Hj].
    - rewrite lookup_insert_eq, Et. simpl; repeat case_bool_decide; congruence.
    - rewrite lookup_insert_ne by congruence.
      destruct (p1 !! j) as [[| | |[|c' s']|]|]; simpl; try reflexivity.
      repeat case_bool_decide; congruence. }
  assert (H3 : match p2 !! "notes" with
               | Some (VStr []) => <["notes" := VNull]> p2
               | _ => p2
               end !! k
               = (fun v => match v with
                           | VStr [] => if bool_decide (k = "notes")
                                        then VNull else v
                           | _ => v
                           end) <$> p2 !! k).
  { destruct (p2 !! "notes") as [[| | |[|c s]|]|] eqn:Et;
      try (destruct (p2 !! k) as [[| | |[|c' s']|]|] eqn:Ej; simpl;
           try reflexivity; case_bool_decide; [congruence|reflexivity]).
    destruct (decide (k = "notes")) as [->|Hj].
    - rewrite lookup_insert_eq, Et. simpl; repeat case_bool_decide; congruence.
    - rewrite lookup_insert_ne by congruence.
      destruct (p2 !! k) as [[| | |[|c' s']|]|]; simpl; try reflexivity.
      repeat case_bool_decide; congruence. }
  rewrite H3, H2, H1. unfold normalised.
  destruct (data !! k) as [[| | |[|c s]|]|]; simpl; try reflexivity;
    repeat case_bool_decide; subst; simpl; try reflexivity; try congruence.
Qed.

Lemma normalised_idem k v : normalised k (normalised k v) = normalised k v.
Proof.
  unfold normalised. destruct v as [| | |[|c s]|]; try reflexivity;
    repeat case_bool_decide; simpl; try reflexivity;
    repeat case_bool_decide; simpl; try reflexivity; congruence.
Qed.

(** X14. A partial update stays partial: [updateTask] sends exactly
    the keys it was given.  It rewrites a string under [tags] into the
    tag array and an empty string under [due_date] or [notes] into
    [null], and passes every other value on as it is. *)
Theorem updateTask_payload_keeps_keys (data : gmap string jsval) :
  dom (updateTask_payload data) = dom data
  /\ (forall k, updateTask_payload data !! k = normalised k <$> data !! k)
  /\ (forall k, k <> "tags" -> k <> "due_date" -> k <> "notes" ->
                updateTask_payload data !! k = data !! k).
Proof.
  split_and!.
  - apply set_eq. intros k. rewrite !elem_of_dom, updateTask_payload_lookup.
    apply fmap_is_Some.
  - apply updateTask_payload_lookup.
  - intros k H1 H2 H3. rewrite updateTask_payload_lookup.
    destruct (data !! k) as [v|]; [|reflexivity]. simpl. f_equal.
    unfold normalised. destruct v; try reflexivity.
    rewrite !bool_decide_eq_false_2 by assumption. reflexivity.
Qed.

(** X15. The body [updateTask] builds is in normal form: handing it to
    [updateTask] again changes nothing. *)
Theorem updateTask_payload_idempotent (data : gmap string jsval) :
  updateTask_payload (updateTask_payload data) = updateTask_payload data.
Proof.
  apply map_eq. intros k. rewrite !updateTask_payload_lookup.
  destruct (data !! k) as [v|]; [|reflexivity]. simpl.
  now rewrite normalised_idem.
Qed.

(** ** Toggle and delete: how they compose *)

Lemma setDone_by_id x y b l : id x = id y -> setDone x b l = setDone y b l.
Proof. intros E. unfold setDone. now rewrite E. Qed.

(** X16. Toggling a task of the list and then toggling the task as it
    is shown afterwards (both calls succeeding, identifiers unique)
    gives back the original list. *)
Theorem toggle_twice_restores (st : AppState) (x : Task) :
  In x (tasks st) -> List.NoDup (List.map id (tasks st)) ->
  In (with_done x (negb (done x))) (tasks (handleToggleDone x true st))
  /\ tasks (handleToggleDone (with_done x (negb (done x))) true
              (handleToggleDone x true st))
     = tasks st.
Proof.
  intros Hx Hnd. split.
  - simpl. apply setDone_In. exists x. split; [exact Hx|].
    now rewrite Z.eqb_refl.
  - simpl. rewrite negb_involutive.
    rewrite (setDone_by_id (with_done x (negb (done x))) x) by reflexivity.
    apply setDone_undo. intros t Ht E. f_equal.
    now apply (NoDup_id_unique (tasks st)).
Qed.

Lemma sampleState_NoDup : List.NoDup (List.map id (tasks sampleState)).
Proof. simpl. repeat constructor; simpl; lia. Qed.

Lemma toggle_twice_restores_witness :
  In (sampleTask 3 2 true None) (tasks sampleState)
  /\ List.NoDup (List.map id (tasks sampleState))
  /\ tasks (handleToggleDone (sampleTask 3 2 false None) true
              (handleToggleDone (sampleTask 3 2 true None) true sampleState))
     = tasks sampleState.
Proof.
  assert (Hin : In (sampleTask 3 2 true None) (tasks sampleState)).
  { simpl. right. right. left. reflexivity. }
  split; [exact Hin|]. split; [exact sampleState_NoDup|].
  exact (proj2 (toggle_twice_restores sampleState _ Hin sampleState_NoDup)).
Defined.

Lemma count_setDone_other p x b l :
  (forall t, In t l -> id t <> id x) -> count p (setDone x b l) = count p l.
Proof.
  intros H. replace (setDone x b l) with l; [reflexivity|].
  unfold setDone. rewrite <- (map_id l) at 1. apply map_ext_in. intros t Ht.
  destruct (Z.eqb_spec (id t) (id x)) as [E|_]; [|reflexivity].
  now elim (H t Ht).
Qed.

Lemma open_after_setDone x b l :
  In x l -> List.NoDup (List.map id l) ->
  count (fun t => negb (done t)) (setDone x b l)
  = count (fun t => negb (done t)) l
    + (if done x then 1 else 0) - (if b then 1 else 0).
Proof.
  induction l as [|a l IH]; [intros []|].
  intros Hx Hnd. apply List.NoDup_cons_iff in Hnd as [Hna Hnd].
  destruct Hx as [->|Hx].
  - change (setDone x b (x :: l))
      with ((if id x =? id x then with_done x b else x) :: setDone x b l).
    rewrite Z.eqb_refl. unfold count at 1 2. simpl List.filter.
    assert (Ho : count (fun t => negb (done t)) (setDone x b l)
                 = count (fun t => negb (done t)) l).
    { apply count_setDone_other. intros t Ht E. apply Hna. rewrite <- E.
      now apply in_map. }
    unfold count in Ho.
    destruct b, (done x); simpl length; lia.
  - specialize (IH Hx Hnd).
    assert (Hne : id a <> id x).
    { intros E. apply Hna. rewrite E. now apply in_map. }
    change (setDone x b (a :: l))
      with ((if id a =? id x then with_done a b else a) :: setDone x b l).
    destruct (Z.eqb_spec (id a) (id x)) as [E|_]; [now elim Hne|].
    unfold count in *. simpl List.filter.
    destruct (negb (done a)); simpl length; lia.
Qed.

(** X17. The stats after a toggle: the total stays, and the open count
    goes down by one when an open task of the list is toggled and up by
    one when a done task is (identifiers unique), already at the
    optimistic update. *)
Theorem toggle_moves_one_between_open_and_done
        (clk : Clock) (st : AppState) (x : Task) :
  In x (tasks st) -> List.NoDup (List.map id (tasks st)) ->
  let after := tasks (handleToggleDone_begin x st) in
  total (stats clk after) = total (stats clk (tasks st))
  /\ open (stats clk after)
     = open (stats clk (tasks st)) + (if done x then 1 else -1)
  /\ doneCount (stats clk after)
     = doneCount (stats clk (tasks st)) - (if done x then 1 else -1).
Proof.
  intros Hx Hnd after. unfold after, stats.
  cbn [total open doneCount handleToggleDone_begin perform setTasks tasks].
  rewrite setDone_length, (open_after_setDone x _ _ Hx Hnd).
  destruct (done x); simpl; split_and!; lia.
Qed.

Lemma toggle_moves_one_between_open_and_done_witness :
  In (sampleTask 3 2 true None) (tasks sampleState)
  /\ List.NoDup (List.map id (tasks sampleState))
  /\ open (stats noonEast
             (tasks (handleToggleDone_begin (sampleTask 3 2 true None)
                       sampleState)))
     = open (stats noonEast (tasks sampleState)) + 1.
Proof.
  assert (Hin : In (sampleTask 3 2 true None) (tasks sampleState)).
  { simpl. right. right. left. reflexivity. }
  split; [exact Hin|]. split; [exact sampleState_NoDup|].
  exact (proj1 (proj2 (toggle_moves_one_between_open_and_done noonEast
                         sampleState _ Hin sampleState_NoDup))).
Defined.

(** X18. After a successful delete every tab shows what it showed
    before with the deleted task left out and nothing reordered (due
    dates being calendar dates). *)
Theorem delete_keeps_view_order (clk : Clock) (f : TaskFilter)
        (st : AppState) (x : Task) :
  Forall validDue (tasks st) ->
  filteredTasks clk f (tasks (handleDelete x true true st))
  = List.filter (fun t => negb (id t =? id x))
      (filteredTasks clk f (tasks st)).
Proof.
  intros Hv. cbn [handleDelete negb perform setTasks tasks].
  unfold filteredTasks. rewrite !applyFilter_keepBy, filter_filter_comm.
  symmetry. apply Array_sort_filter with (P := validDue).
  - exact compareTasks_signConsistent.
  - exact compareTasks_transitive.
  - now apply Forall_filter_keep.
Qed.

Lemma delete_keeps_view_order_witness :
  Forall validDue (tasks (mkApp mixedTasks []))
  /\ filteredTasks noonEast FilterOpen
       (tasks (handleDelete (sampleTask 4 2 false dueJan14) true true
                 (mkApp mixedTasks [])))
     = List.filter (fun t => negb (id t =? 4))
         (filteredTasks noonEast FilterOpen mixedTasks).
Proof.
  split; [exact mixedTasks_validDue|].
  exact (delete_keeps_view_order noonEast FilterOpen (mkApp mixedTasks [])
           (sampleTask 4 2 false dueJan14) mixedTasks_validDue).
Defined.

Lemma filter_id_length x l :
  In x l -> List.NoDup (List.map id l) ->
  S (length (List.filter (fun t => negb (id t =? id x)) l)) = length l.
Proof.
  induction l as [|a l IH]; [intros []|].
  intros Hx Hnd. apply List.NoDup_cons_iff in Hnd as [Hna Hnd]. simpl.
  destruct Hx as [->|Hx].
  - rewrite Z.eqb_refl. simpl. f_equal. f_equal.
    apply filter_all_true. intros t Ht. apply negb_true_iff, Z.eqb_neq.
    intros E. apply Hna. rewrite <- E. now apply in_map.
  - destruct (Z.eqb_spec (id a) (id x)) as [E|_].
    + elim Hna. rewrite E. now apply in_map.
    + simpl. f_equal. now apply IH.
Qed.

(** X19. A successful delete of a task of the list (identifiers
    unique) removes exactly one task: the list is one shorter, the
    identifier is gone from it, the identifiers stay unique, and the
    counts of the stats add up again with a total one lower. *)
Theorem delete_removes_exactly_one (clk : Clock) (st : AppState) (x : Task) :
  In x (tasks st) -> List.NoDup (List.map id (tasks st)) ->
  let after := tasks (handleDelete x true true st) in
  S (length after) = length (tasks st)
  /\ ~ In (id x) (List.map id after)
  /\ List.NoDup (List.map id after)
  /\ total (stats clk after) = total (stats clk (tasks st)) - 1.
Proof.
  intros Hx Hnd after.
  assert (Hl : S (length after) = length (tasks st)).
  { now apply filter_id_length. }
  split_and!.
  - exact Hl.
  - intros H. apply in_map_iff in H as (t & E & Ht).
    apply filter_In in Ht as [_ Ht].
    apply negb_true_iff, Z.eqb_neq in Ht. congruence.
  - unfold after. cbn [handleDelete negb perform setTasks tasks].
    clear Hl Hx after. induction (tasks st) as [|a l IH]; [constructor|].
    apply List.NoDup_cons_iff in Hnd as [Hna Hnd]. simpl.
    destruct (negb (id a =? id x)); [|now apply IH]. simpl.
    constructor; [|now apply IH].
    intros H. apply Hna. apply in_map_iff in H as (t & E & Ht).
    apply filter_In in Ht as [Ht _]. rewrite <- E. now apply in_map.
  - unfold stats. cbn [total]. lia.
Qed.

Lemma delete_removes_exactly_one_witness :
  In (sampleTask 2 1 false dueJan15) (tasks sampleState)
  /\ List.NoDup (List.map id (tasks sampleState))
  /\ S (length (tasks (handleDelete (sampleTask 2 1 false dueJan15) true true
                         sampleState)))
     = length (tasks sampleState).
Proof.
  assert (Hin : In (sampleTask 2 1 false dueJan15) (tasks sampleState)).
  { simpl. right. left. reflexivity. }
  split; [exact Hin|]. split; [exact sampleState_NoDup|].
  exact (proj1 (delete_removes_exactly_one noonEast sampleState _ Hin
                  sampleState_NoDup)).
Defined.

(** ** Saving from the editor *)

Ltac dash :=
  cbv zeta;
  cbn [handleCreate handleUpdate loadTasks loadTasks_begin loadTasks_resume
       onClose openEditModal openCreateModal syncForm
       set_tasks set_loading set_error set_isFormOpen set_editingTask
       set_formData set_formLoading call
       d_tasks d_loading d_error d_currentFilter d_searchQuery d_tagFilter
       d_isFormOpen d_editingTask d_formData d_formLoading d_calls].

Lemma syncForm_eq s : syncForm s = set_formData (d_formData (syncForm s)) s.
Proof.
  unfold syncForm. destruct (d_isFormOpen s), (d_editingTask s);
    try reflexivity; now destruct s.
Qed.

(** X20. When the API call of a save fails, in create and in edit mode
    alike, nothing is lost and nothing is reloaded: the editor stays as
    open as it was with its form and its task, the task list, the banner
    and the load indicator are untouched, the only request is the failed
    one, the error is logged and an alert raised, and the busy flag of
    the form is cleared. *)
Theorem failed_save_keeps_editor (s : Dashboard)
        (fetched : option (list Task)) :
  let s' := handleSubmit false fetched s in
  d_isFormOpen s' = d_isFormOpen s
  /\ d_editingTask s' = d_editingTask s
  /\ d_formData s' = d_formData s
  /\ d_tasks s' = d_tasks s
  /\ d_error s' = d_error s
  /\ d_loading s' = d_loading s
  /\ d_formLoading s' = false
  /\ d_calls s'
     = d_calls s ++ [CRequest (saveRequest s); CConsoleError;
                     CAlert saveFailedMsg].
Proof.
  cbv zeta. unfold handleSubmit, saveRequest, handleUpdate, handleCreate.
  destruct (d_editingTask s) as [t|] eqn:E; do 3 (dash; rewrite ?E);
    rewrite <- ?app_assoc; split_and!; reflexivity.
Qed.

(** X21. When the API call of a save succeeds, the editor closes and
    forgets its task whether or not the reload that follows succeeds.
    The save sends one request, whose body is the normalised form in
    create and in edit mode alike, and then one reload.  A failed reload
    leaves the old list on display and raises the banner; a successful
    one replaces the list and clears the banner. *)
Theorem successful_save_closes_editor (s : Dashboard)
        (fetched : option (list Task)) :
  let s' := handleSubmit true fetched s in
  d_isFormOpen s' = false
  /\ d_editingTask s' = None
  /\ d_formLoading s' = false
  /\ d_loading s' = false
  /\ d_tasks s' = match fetched with
                  | Some data => data
                  | None => d_tasks s
                  end
  /\ d_error s' = match fetched with
                  | Some _ => None
                  | None => Some loadFailedMsg
                  end
  /\ d_calls s' = d_calls s ++ [CRequest (saveRequest s); reloadCall s]
  /\ body (saveRequest s) = Some (createTask_payload (d_formData s)).
Proof.
  cbv zeta.
  unfold handleSubmit, saveRequest, reloadCall, handleUpdate, handleCreate.
  destruct (d_editingTask s) as [t|] eqn:E; do 3 (dash; rewrite ?E).
  - unfold updateTask_request. cbn [body].
    rewrite updateTask_payload_create, syncForm_eq.
    destruct fetched; dash; rewrite <- ?app_assoc; split_and!; reflexivity.
  - destruct fetched; dash; rewrite <- ?app_assoc; split_and!; reflexivity.
Qed.

Lemma reloadCall_openEditModal t s : reloadCall (openEditModal t s) = reloadCall s.
Proof. reflexivity. Qed.

(** X22. Opening a task in the editor and saving it unchanged (tags
    being non-empty, trimmed and comma-free) sends one PATCH to the
    identifier of that task, carrying the five form keys with the
    title, priority and tags of the task and its due date and notes
    ([null] when absent or empty), followed by one reload. *)
Theorem edit_and_save_unchanged (s : Dashboard) (t : Task)
        (fetched : option (list Task)) :
  Forall cleanTag (tags t) ->
  exists b : gmap string jsval,
    d_calls (handleSubmit true fetched (openEditModal t s))
    = d_calls s ++ [CRequest (mkRequest PATCH (Some (id t)) (Some b));
                    reloadCall s]
    /\ dom b = formKeys
    /\ b !! "title" = Some (VStr (title t))
    /\ b !! "priority" = Some (VNum (priority t))
    /\ b !! "due_date" = Some (optValue (due_date t))
    /\ b !! "notes" = Some (optValue (notes t))
    /\ b !! "tags" = Some (VArr (tags t)).
Proof.
  intros Hc. exists (createTask_payload (formOfTask t)). split_and!.
  - unfold handleSubmit, reloadCall, handleUpdate. dash.
    unfold updateTask_request. rewrite updateTask_payload_create.
    destruct fetched; dash; rewrite <- ?app_assoc; reflexivity.
  - apply createTask_payload_dom.
  - unfold createTask_payload, formObject.
    now rewrite !lookup_insert_ne, lookup_insert_eq by done.
  - unfold createTask_payload, formObject.
    now rewrite !lookup_insert_ne, lookup_insert_eq by done.
  - unfold createTask_payload. simpl f_due_date.
    rewrite orNull_orEmpty, lookup_insert_ne, lookup_insert_ne by done.
    apply lookup_insert_eq.
  - unfold createTask_payload. simpl f_notes.
    rewrite orNull_orEmpty, lookup_insert_ne by done. apply lookup_insert_eq.
  - unfold createTask_payload. simpl f_tags.
    rewrite tagsArray_join by exact Hc. apply lookup_insert_eq.
Qed.

Lemma twoTagTask_clean : Forall cleanTag (tags twoTagTask).
Proof.
  repeat constructor; try discriminate; try reflexivity;
    intros [E|[]]; discriminate.
Qed.

Lemma edit_and_save_unchanged_witness :
  Forall cleanTag (tags twoTagTask)
  /\ exists b : gmap string jsval,
       d_calls (handleSubmit true None (openEditModal twoTagTask idleDashboard))
       = [CRequest (mkRequest PATCH (Some 10) (Some b));
          reloadCall idleDashboard]
       /\ b !! "tags" = Some (VArr [str "a"; str "b"]).
Proof.
  split; [exact twoTagTask_clean|].
  destruct (edit_and_save_unchanged idleDashboard twoTagTask None
              twoTagTask_clean) as (b & Hcalls & _ & _ & _ & _ & _ & Htags).
  exists b. split; [exact Hcalls | exact Htags].
Defined.

(** ** The query of [fetchTasks] *)

Lemma fetchTasks_params_In showDone search tag k v :
  In (k, v) (fetchTasks_params showDone search tag) <->
  (k = "show_done" /\ v = (if showDone then str "true" else str "false"))
  \/ (k = "search" /\ search = Some v /\ v <> [])
  \/ (k = "tag" /\ tag = Some v /\ v <> []).
Proof.
  unfold fetchTasks_params. rewrite !in_app_iff.
  destruct search as [[|c u]|], tag as [[|d w]|]; simpl;
    intuition congruence.
Qed.

(** X23. [fetchTasks] sends every parameter at most once and none with
    an empty value: [show_done] always, [search] and [tag] exactly when
    they are given and not the empty string.  The reload of the
    dashboard always asks with [show_done=true], whatever the tab. *)
Theorem fetchTasks_params_shape (showDone : bool)
        (search tag : option jsstring) (s : Dashboard) :
  let ps := fetchTasks_params showDone search tag in
  List.NoDup (List.map fst ps)
  /\ Forall (fun kv => snd kv <> []) ps
  /\ In ("show_done", if showDone then str "true" else str "false") ps
  /\ (forall v, In ("search", v) ps <-> search = Some v /\ v <> [])
  /\ (forall v, In ("tag", v) ps <-> tag = Some v /\ v <> [])
  /\ exists rest,
       reloadCall s = CFetchTasks (("show_done", str "true") :: rest).
Proof.
  cbv zeta. split_and!.
  - unfold fetchTasks_params.
    destruct search as [[|c u]|], tag as [[|d w]|]; simpl;
      repeat constructor; simpl; intuition discriminate.
  - apply List.Forall_forall. intros [k v] H.
    apply fetchTasks_params_In in H. simpl.
    destruct H as [[_ ->]|[(_ & _ & H)|(_ & _ & H)]]; try exact H.
    now destruct showDone.
  - apply fetchTasks_params_In. now left.
  - intros v. rewrite fetchTasks_params_In. intuition congruence.
  - intros v. rewrite fetchTasks_params_In. intuition congruence.
  - unfold reloadCall, fetchTasks_params. eexists. reflexivity.
Qed.

(** ** The debounced reload *)

Lemma set_searchQuery_twice q q' s :
  set_searchQuery q (set_searchQuery q' s) = set_searchQuery q s.
Proof. reflexivity. Qed.

Lemma typeSearch_within t s t' q' :
  t' < t + debounceMs -> q' <> d_searchQuery s ->
  typeSearch t' q' (rearm t s) = rearm t' (set_searchQuery q' s).
Proof.
  intros Ht Hq. unfold typeSearch, elapse. cbn [rearm timer board].
  destruct (Z.leb_spec (t + debounceMs) t') as [H|_]; [lia|].
  cbn [board]. now rewrite bool_decide_eq_false_2.
Qed.

Lemma last_default {A : Type} (l : list A) (d d' : A) :
  l <> [] -> List.last l d = List.last l d'.
Proof.
  induction l as [|x l IH]; intros H; [now elim H|].
  destruct l as [|y l]; [reflexivity|].
  change (List.last (y :: l) d = List.last (y :: l) d').
  now apply IH.
Qed.

Lemma typeAll_burst keys : forall t s,
  keys <> [] -> burst t (d_searchQuery s) keys ->
  typeAll keys (rearm t s)
  = rearm (fst (lastKey t (d_searchQuery s) keys))
      (set_searchQuery (snd (lastKey t (d_searchQuery s) keys)) s).
Proof.
  induction keys as [|[t' q'] keys IH]; intros t s Hne Hb; [now elim Hne|].
  destruct Hb as (_ & Ht & Hq & Hb).
  unfold typeAll. cbn [List.fold_left fst snd].
  rewrite typeSearch_within by assumption.
  destruct keys as [|k keys]; [reflexivity|].
  fold (typeAll (k :: keys) (rearm t' (set_searchQuery q' s))).
  rewrite IH; [|discriminate|exact Hb].
  cbn [d_searchQuery set_searchQuery]. unfold lastKey.
  change (List.last ((t', q') :: k :: keys) (t, d_searchQuery s))
    with (List.last (k :: keys) (t, d_searchQuery s)).
  now rewrite (last_default (k :: keys) (t', q') (t, d_searchQuery s)).
Qed.

(** X24. Key strokes in the search box that follow one another (and
    the last run of the effect) in less than 300 ms start no reload
    while they last; 300 ms after the last of them exactly one reload
    starts, asking for the text of the last key stroke. *)
Theorem burst_of_keys_reloads_once (s : Dashboard) (t : Z)
        (keys : list (Z * jsstring)) (T : Z) :
  keys <> [] -> burst t (d_searchQuery s) keys ->
  let w := typeAll keys (rearm t s) in
  let tn := fst (lastKey t (d_searchQuery s) keys) in
  let qn := snd (lastKey t (d_searchQuery s) keys) in
  d_calls (board w) = d_calls s
  /\ d_searchQuery (board w) = qn
  /\ (T < tn + debounceMs -> elapse T w = w)
  /\ (tn + debounceMs <= T ->
      timer (elapse T w) = None
      /\ d_calls (board (elapse T w))
         = d_calls s
           ++ [CFetchTasks (fetchTasks_params true (Some qn)
                              (orUndefined (d_tagFilter s)))]).
Proof.
  intros Hne Hb w tn qn. unfold w. rewrite (typeAll_burst keys t s Hne Hb).
  fold tn qn. split_and!; try reflexivity.
  - intros HT. unfold elapse. cbn [rearm timer].
    destruct (Z.leb_spec (tn + debounceMs) T); [lia|reflexivity].
  - intros HT. unfold elapse. cbn [rearm timer].
    destruct (Z.leb_spec (tn + debounceMs) T); [|lia].
    split; reflexivity.
Qed.

Lemma burst_of_keys_reloads_once_witness :
  [(100, str "a"); (250, str "ab"); (500, str "abc")] <> []
  /\ burst 0 (d_searchQuery idleDashboard)
       [(100, str "a"); (250, str "ab"); (500, str "abc")]
  /\ d_calls (board (elapse 800
                       (typeAll [(100, str "a"); (250, str "ab");
                                 (500, str "abc")]
                          (rearm 0 idleDashboard))))
     = [CFetchTasks (fetchTasks_params true (Some (str "abc")) None)].
Proof.
  assert (Hne : [(100, str "a"); (250, str "ab"); (500, str "abc")] <> [])
    by discriminate.
  assert (Hb : burst 0 (d_searchQuery idleDashboard)
                 [(100, str "a"); (250, str "ab"); (500, str "abc")]).
  { simpl. unfold debounceMs. repeat split; try lia; discriminate. }
  split; [exact Hne|]. split; [exact Hb|].
  destruct (burst_of_keys_reloads_once idleDashboard 0 _ 800 Hne Hb)
    as (_ & _ & _ & H).
  apply H. vm_compute. congruence.
Defined.

(** ** The documents of a card *)

Section CardFacts.

Context {File : Type}.

(** X25. On a card whose documents do not have the identifier of the
    new one, an upload puts the new document first and keeps all the
    others, and deleting that document again gives back the list as it
    was; the identifiers stay distinct after the upload. *)
Theorem upload_then_delete_restores (task : Task) (f : File)
        (newDoc : TaskDocument) (c : @Card File) :
  ~ In (doc_id newDoc) (List.map doc_id (documents c)) ->
  let c1 := handleFileChange task (Some f) (Some newDoc) c in
  documents c1 = newDoc :: documents c
  /\ (List.NoDup (List.map doc_id (documents c)) ->
      List.NoDup (List.map doc_id (documents c1)))
  /\ documents (handleDeleteDocument (doc_id newDoc) true true c1)
     = documents c
  /\ c_calls (handleDeleteDocument (doc_id newDoc) true true c1)
     = c_calls c ++ [CUploadDocument (id task) f;
                     CConfirmDocument confirmDocumentMsg;
                     CDeleteDocument (doc_id newDoc)].
Proof.
  intros Hfresh c1. split_and!.
  - reflexivity.
  - intros Hnd. simpl. now constructor.
  - cbn [c1 handleFileChange handleDeleteDocument negb set_documents
         set_docsLoading set_docsError set_inputValue cardCall documents].
    cbn [List.filter]. rewrite Z.eqb_refl. cbn [negb].
    apply filter_all_true. intros d Hd.
    apply negb_true_iff, Z.eqb_neq. intros E. apply Hfresh.
    rewrite <- E. now apply in_map.
  - cbn [c1 handleFileChange handleDeleteDocument negb set_documents
         set_docsLoading set_docsError set_inputValue cardCall c_calls].
    now rewrite <- !app_assoc.
Qed.

End CardFacts.

Lemma upload_then_delete_restores_witness :
  ~ In (doc_id docB) (List.map doc_id (documents sampleCard))
  /\ documents (handleDeleteDocument (doc_id docB) true true
                  (handleFileChange (sampleTask 2 1 false dueJan15)
                     (Some (str "notiz.txt")) (Some docB) sampleCard))
     = documents sampleCard.
Proof.
  assert (Hf : ~ In (doc_id docB) (List.map doc_id (documents sampleCard))).
  { simpl. intros [H|[]]. discriminate. }
  split; [exact Hf|].
  destruct (upload_then_delete_restores (sampleTask 2 1 false dueJan15)
              (str "notiz.txt") docB sampleCard Hf) as (_ & _ & H & _).
  exact H.
Defined.
